(** * 42 tools: the Makefile renderer and the vendor-flags patch

    A shallow embedding of [src/42.py]: the text helpers of Python the
    program relies on ([str.strip], [in], [str.replace], [str.endswith],
    [str.join]), the regular expression of [update_makefile] under
    [re.MULTILINE] with [re.findall] and [re.sub], the rendering of the
    project Makefile, and the commands [create_makefile],
    [update_makefile] and [run_compile] as programs of a state and
    exception monad over a small model of the process environment.

    Conventions.  A Python [str] is a list of characters; a character is
    a code point below 256.  A file holds the characters written to it;
    reading goes through text mode, which turns every carriage return and
    every carriage return + line feed into a line feed.  The host is
    POSIX (the tool shells out to [make] and [rm]), so writing a line
    feed stores a line feed.  Shell commands are recorded, not run: what
    [make] or norminette do to the files is outside the model.

    The properties come in this order: the rendered Makefile and its
    flags; the debug marker; what the programs do to the world, with the
    determinism of [create_makefile], its result, and the vendor build
    file without a flags line; the pattern read without backtracking and
    the scan of [re.findall] and [re.sub]; the patch at the first flags
    line, compiling twice, and patching twice; and, last, the patch on
    particular build files. *)

From Stdlib Require Import List Ascii String Bool Arith Lia.
From stdpp Require Import base option gmap strings.
Import ListNotations.

Local Open Scope list_scope.
Local Open Scope bool_scope.

(** ** Text *)

Abbreviation text := (list ascii).

Definition str (s : string) : text := list_ascii_of_string s.

Definition LF : ascii := ascii_of_nat 10.
Definition CR : ascii := ascii_of_nat 13.
Definition TAB : ascii := ascii_of_nat 9.
Definition BACKSLASH : ascii := ascii_of_nat 92.

Definition text_eqb (a b : text) : bool :=
  bool_decide (a = b).

(** [str.isspace] for one character, which is also the class [\s] of a
    [str] pattern: the ASCII white space, the four separators 28..31,
    NEL (133) and the no-break space (160). *)
Definition isspace (c : ascii) : bool :=
  let n := nat_of_ascii c in
  (Nat.leb 9 n && Nat.leb n 13) || (Nat.leb 28 n && Nat.leb n 32)
  || Nat.eqb n 133 || Nat.eqb n 160.

Fixpoint lstrip (s : text) : text :=
  match s with
  | c :: s' => if isspace c then lstrip s' else s
  | [] => []
  end.

Definition rstrip (s : text) : text := rev (lstrip (rev s)).

Definition strip (s : text) : text := rstrip (lstrip s).

Fixpoint startswith (p s : text) : bool :=
  match p, s with
  | [], _ => true
  | a :: p', b :: s' => Ascii.eqb a b && startswith p' s'
  | _ :: _, [] => false
  end.

Definition endswith (p s : text) : bool := startswith (rev p) (rev s).

(** [sub in s] *)
Fixpoint contains (sub s : text) : bool :=
  startswith sub s ||
  match s with
  | [] => false
  | _ :: s' => contains sub s'
  end.

(** [s.replace(old, new)] for a non-empty [old]: occurrences are found
    from the left and do not overlap.  [skip] counts the characters of
    an occurrence still to be dropped. *)
Fixpoint replace_from (old new s : text) (skip : nat) : text :=
  match s with
  | [] => []
  | c :: s' =>
      match skip with
      | S n => replace_from old new s' n
      | O =>
          if startswith old s
          then new ++ replace_from old new s' (length old - 1)
          else c :: replace_from old new s' 0
      end
  end.

Definition replace (old new s : text) : text :=
  match old with
  | [] => new ++ flat_map (fun c => c :: new) s
  | _ :: _ => replace_from old new s 0
  end.

(** [sep.join(l)] *)
Fixpoint join (sep : text) (l : list text) : text :=
  match l with
  | [] => []
  | [x] => x
  | x :: l' => x ++ sep ++ join sep l'
  end.

(** Text mode reading with universal newlines. *)
Fixpoint universal_newlines (s : text) : text :=
  match s with
  | [] => []
  | c :: s' =>
      if Ascii.eqb c CR then
        LF :: match s' with
              | d :: s'' => if Ascii.eqb d LF then universal_newlines s''
                            else universal_newlines s'
              | [] => []
              end
      else c :: universal_newlines s'
  end.

(** ** Regular expressions

    The fragment of Python's [re] the program uses, with the semantics of
    its backtracking matcher: alternatives are tried from the left, a
    star is greedy and gives characters back one at a time, [^] and [$]
    are the [re.MULTILINE] anchors.  A position in the subject is the
    pair of the text before it, reversed, and the text after it. *)

Inductive regex : Type :=
| Bol
| Eol
| Chr (c : ascii)
| Eps
| Seq (r1 r2 : regex)
| Alt (r1 r2 : regex)
| Star (p : ascii -> bool)
| Group (n : nat) (r : regex).

Abbreviation caps := (list (nat * text)).

Definition at_bol (pre : text) : bool :=
  match pre with
  | [] => true
  | c :: _ => Ascii.eqb c LF
  end.

Definition at_eol (s : text) : bool :=
  match s with
  | [] => true
  | c :: _ => Ascii.eqb c LF
  end.

Fixpoint star {R : Type} (p : ascii -> bool) (pre s : text)
    (k : text -> text -> option R) : option R :=
  match s with
  | c :: s' =>
      if p c then
        match star p (c :: pre) s' k with
        | Some r => Some r
        | None => k pre s
        end
      else k pre s
  | [] => k pre s
  end.

(** The text consumed between the positions [pre] and [pre'] *)
Definition captured (pre pre' : text) : text :=
  rev (firstn (length pre' - length pre) pre').

Fixpoint rmatch {R : Type} (r : regex) (pre s : text) (g : caps)
    (k : text -> text -> caps -> option R) : option R :=
  match r with
  | Bol => if at_bol pre then k pre s g else None
  | Eol => if at_eol s then k pre s g else None
  | Chr c =>
      match s with
      | x :: s' => if Ascii.eqb x c then k (x :: pre) s' g else None
      | [] => None
      end
  | Eps => k pre s g
  | Seq r1 r2 => rmatch r1 pre s g (fun pre' s' g' => rmatch r2 pre' s' g' k)
  | Alt r1 r2 =>
      match rmatch r1 pre s g k with
      | Some x => Some x
      | None => rmatch r2 pre s g k
      end
  | Star p => star p pre s (fun pre' s' => k pre' s' g)
  | Group n r =>
      rmatch r pre s g (fun pre' s' g' => k pre' s' ((n, captured pre pre') :: g'))
  end.

(** A match that starts at the position [(pre, s)]: its length and its
    groups. *)
Definition match_at (r : regex) (pre s : text) : option (nat * caps) :=
  rmatch r pre s [] (fun pre' _ g => Some (length pre' - length pre, g)).

(** [m.group(n)], the empty text for a group that took no part *)
Fixpoint group (g : caps) (n : nat) : text :=
  match g with
  | [] => []
  | (m, t) :: g' => if Nat.eqb m n then t else group g' n
  end.

Fixpoint ngroups (r : regex) : nat :=
  match r with
  | Seq r1 r2 | Alt r1 r2 => ngroups r1 + ngroups r2
  | Group _ r => S (ngroups r)
  | _ => 0
  end.

(** A match at the position [(pre, s)] that is not empty: the matcher
    backtracks out of an empty result.  The scan asks for one right
    after an empty match at the same position. *)
Definition match_at_advancing (r : regex) (pre s : text) : option (nat * caps) :=
  rmatch r pre s []
    (fun pre' _ g =>
       match length pre' - length pre with
       | O => None
       | S n => Some (S n, g)
       end).

(** The successive matches, from the left and without overlap, as
    [re.finditer] yields them: the matched text with its groups.  [skip]
    counts the characters of the last match that are still to be passed.
    An empty match is followed by a match that is not empty at the same
    position, if there is one, and by the next character otherwise. *)
Fixpoint matches_from (r : regex) (pre s : text) (skip : nat) : list (text * caps) :=
  match s with
  | [] =>
      match skip, match_at r pre [] with
      | O, Some (_, g) => [([], g)]
      | _, _ => []
      end
  | c :: s' =>
      match skip with
      | S n => matches_from r (c :: pre) s' n
      | O =>
          match match_at r pre s with
          | Some (O, g) =>
              ([], g) ::
              match match_at_advancing r pre s with
              | Some (S n, g') =>
                  (firstn (S n) s, g') :: matches_from r (c :: pre) s' n
              | _ => matches_from r (c :: pre) s' 0
              end
          | Some (S n, g) => (firstn (S n) s, g) :: matches_from r (c :: pre) s' n
          | None => matches_from r (c :: pre) s' 0
          end
      end
  end.

(** [re.findall] for a pattern with two groups: the pairs of groups. *)
Definition findall (r : regex) (s : text) : list (text * text) :=
  map (fun m => (group (snd m) 1, group (snd m) 2)) (matches_from r [] s 0).

(** *** Replacement templates

    [re.sub] reads its replacement as a template: a backslash starts an
    escape or a group reference, and a template it cannot read raises. *)

Inductive titem : Type :=
| TLit (c : ascii)
| TGroup (n : nat).

Definition isdigit (c : ascii) : bool :=
  let n := nat_of_ascii c in Nat.leb 48 n && Nat.leb n 57.

Definition isoctdigit (c : ascii) : bool :=
  let n := nat_of_ascii c in Nat.leb 48 n && Nat.leb n 55.

Definition isasciiletter (c : ascii) : bool :=
  let n := nat_of_ascii c in
  (Nat.leb 65 n && Nat.leb n 90) || (Nat.leb 97 n && Nat.leb n 122).

Definition digit_value (c : ascii) : nat := nat_of_ascii c - 48.

(** [int(name)] for a name of decimal digits *)
Definition decimal (name : text) : N :=
  fold_left (fun acc c => (10 * acc + N.of_nat (digit_value c))%N) name 0%N.

(** The text up to the first [>], if there is one *)
Fixpoint getuntil_gt (s : text) : option text :=
  match s with
  | [] => None
  | c :: s' =>
      if Ascii.eqb c ">"%char then Some []
      else option_map (cons c) (getuntil_gt s')
  end.

Definition group_ref (n : nat) (index : N) (used : nat) : option (list titem * nat) :=
  if (index <=? N.of_nat n)%N then Some ([TGroup (N.to_nat index)], used) else None.

(** The escape that follows a backslash in a template for a pattern
    with [n] groups, none of them named: the items it stands for and the
    number of characters it takes after the backslash; [None] when the
    template is refused.  A group name must be ASCII decimal digits
    (CPython 3.12 and later), at most 4300 of them (the interpreter's
    default limit on [int] of a string). *)
Definition escape (n : nat) (s : text) : option (list titem * nat) :=
  match s with
  | [] => None
  | e :: s1 =>
      if Ascii.eqb e "g"%char then
        match s1 with
        | lt :: s2 =>
            if Ascii.eqb lt "<"%char then
              match getuntil_gt s2 with
              | Some name =>
                  if negb (Nat.eqb (length name) 0) && forallb isdigit name
                     && Nat.leb (length name) 4300
                  then group_ref n (decimal name) (length name + 3)
                  else None
              | None => None
              end
            else None
        | [] => None
        end
      else if Ascii.eqb e "0"%char then
        match s1 with
        | d1 :: s2 =>
            if isoctdigit d1 then
              match s2 with
              | d2 :: _ =>
                  if isoctdigit d2
                  then Some ([TLit (ascii_of_nat (8 * digit_value d1 + digit_value d2))], 3)
                  else Some ([TLit (ascii_of_nat (digit_value d1))], 2)
              | [] => Some ([TLit (ascii_of_nat (digit_value d1))], 2)
              end
            else Some ([TLit (ascii_of_nat 0)], 1)
        | [] => Some ([TLit (ascii_of_nat 0)], 1)
        end
      else if isdigit e then
        match s1 with
        | d1 :: s2 =>
            if isdigit d1 then
              if isoctdigit e && isoctdigit d1
                 && match s2 with d2 :: _ => isoctdigit d2 | [] => false end
              then
                let v := 64 * digit_value e + 8 * digit_value d1
                         + match s2 with d2 :: _ => digit_value d2 | [] => 0 end in
                if Nat.leb v 255 then Some ([TLit (ascii_of_nat v)], 3) else None
              else group_ref n (N.of_nat (10 * digit_value e + digit_value d1)) 2
            else group_ref n (N.of_nat (digit_value e)) 1
        | [] => group_ref n (N.of_nat (digit_value e)) 1
        end
      else if Ascii.eqb e "a"%char then Some ([TLit (ascii_of_nat 7)], 1)
      else if Ascii.eqb e "b"%char then Some ([TLit (ascii_of_nat 8)], 1)
      else if Ascii.eqb e "f"%char then Some ([TLit (ascii_of_nat 12)], 1)
      else if Ascii.eqb e "n"%char then Some ([TLit LF], 1)
      else if Ascii.eqb e "r"%char then Some ([TLit CR], 1)
      else if Ascii.eqb e "t"%char then Some ([TLit TAB], 1)
      else if Ascii.eqb e "v"%char then Some ([TLit (ascii_of_nat 11)], 1)
      else if Ascii.eqb e BACKSLASH then Some ([TLit BACKSLASH], 1)
      else if isasciiletter e then None
      else Some ([TLit BACKSLASH; TLit e], 1)
  end.

Fixpoint parse_template_from (n : nat) (t : text) (skip : nat) : option (list titem) :=
  match t with
  | [] => Some []
  | c :: t' =>
      match skip with
      | S m => parse_template_from n t' m
      | O =>
          if Ascii.eqb c BACKSLASH then
            match escape n t' with
            | Some (items, used) =>
                option_map (app items) (parse_template_from n t' used)
            | None => None
            end
          else option_map (cons (TLit c)) (parse_template_from n t' 0)
      end
  end.

Definition parse_template (n : nat) (t : text) : option (list titem) :=
  parse_template_from n t 0.

Definition expand_item (whole : text) (g : caps) (i : titem) : text :=
  match i with
  | TLit c => [c]
  | TGroup O => whole
  | TGroup n => group g n
  end.

Definition expand_template (tpl : list titem) (whole : text) (g : caps) : text :=
  flat_map (expand_item whole g) tpl.

(** The subject with every match replaced by the expanded template *)
Fixpoint sub_from (r : regex) (tpl : list titem) (pre s : text) (skip : nat) : text :=
  match s with
  | [] =>
      match skip, match_at r pre [] with
      | O, Some (_, g) => expand_template tpl [] g
      | _, _ => []
      end
  | c :: s' =>
      match skip with
      | S n => sub_from r tpl (c :: pre) s' n
      | O =>
          match match_at r pre s with
          | Some (O, g) =>
              expand_template tpl [] g ++
              match match_at_advancing r pre s with
              | Some (S n, g') =>
                  expand_template tpl (firstn (S n) s) g'
                  ++ sub_from r tpl (c :: pre) s' n
              | _ => c :: sub_from r tpl (c :: pre) s' 0
              end
          | Some (S n, g) =>
              expand_template tpl (firstn (S n) s) g ++ sub_from r tpl (c :: pre) s' n
          | None => c :: sub_from r tpl (c :: pre) s' 0
          end
      end
  end.

(** [re.sub(r, repl, s)]: [None] when the template is refused *)
Definition sub (r : regex) (repl s : text) : option text :=
  match parse_template (ngroups r) repl with
  | Some tpl => Some (sub_from r tpl [] s 0)
  | None => None
  end.

(** The class of the dot: every character but the line feed *)
Definition notnl (c : ascii) : bool := negb (Ascii.eqb c LF).

Fixpoint lit (s : text) : regex :=
  match s with
  | [] => Eps
  | c :: s' => Seq (Chr c) (lit s')
  end.

(** The pattern of [update_makefile]: [^], the word [CFLAGS], [\s*],
    a first group for [:], [\?] or nothing, [=], [\s*], a second group
    for a greedy run of the dot, and [$] *)
Definition cflags_re : regex :=
  Seq Bol
   (Seq (lit (str "CFLAGS"))
    (Seq (Star isspace)
     (Seq (Group 1 (Alt (Chr ":"%char) (Alt (Chr "?"%char) Eps)))
      (Seq (Chr "="%char)
       (Seq (Star isspace)
        (Seq (Group 2 (Star notnl)) Eol)))))).

(** ** The process environment *)

Inductive level : Type := DEBUG | INFO | WARNING | ERROR.

(** What lives under [src]: [os.listdir] yields the entries in this
    order, and [os.path.isdir] tells the two kinds apart. *)
#[warnings="-register-all"]
Inductive entry : Type :=
| File (name : text)
| Dir (name : text) (children : list entry).

Inductive exn : Type :=
| FileNotFoundError (path : string)
| TemplateError
| CalledProcessError (command : text).

Inductive outcome (A : Type) : Type :=
| Ret (a : A)
| Raise (e : exn).
Arguments Ret {A} a.
Arguments Raise {A} e.

Record world : Type := mkWorld {
  files : gmap string text;       (* the regular files the tool reads and writes *)
  src_dir : option (list entry);  (* the directory [src], if it exists *)
  cwd : text;                     (* [os.getcwd()] *)
  log : list (level * text);      (* the calls to [logging], oldest first *)
  cmds : list text;               (* the shell commands run, oldest first *)
  made_dirs : list text;          (* the arguments of [os.makedirs] in [copy_source_structure] *)
  exit_ok : text -> bool          (* whether a shell command exits with status 0 *)
}.

Definition set_files (f : gmap string text) (w : world) : world :=
  mkWorld f (src_dir w) (cwd w) (log w) (cmds w) (made_dirs w) (exit_ok w).

Definition add_log (l : level) (m : text) (w : world) : world :=
  mkWorld (files w) (src_dir w) (cwd w) (log w ++ [(l, m)]) (cmds w) (made_dirs w) (exit_ok w).

Definition add_cmd (c : text) (w : world) : world :=
  mkWorld (files w) (src_dir w) (cwd w) (log w) (cmds w ++ [c]) (made_dirs w) (exit_ok w).

Definition add_dir (d : text) (w : world) : world :=
  mkWorld (files w) (src_dir w) (cwd w) (log w) (cmds w) (made_dirs w ++ [d]) (exit_ok w).

(** Programs: a state monad over [world] with exceptions *)
Definition M (A : Type) : Type := world -> outcome A * world.

Definition ret {A : Type} (a : A) : M A := fun w => (Ret a, w).

Definition raise {A : Type} (e : exn) : M A := fun w => (Raise e, w).

Definition bind {A B : Type} (c : M A) (k : A -> M B) : M B :=
  fun w =>
    match c w with
    | (Ret a, w') => k a w'
    | (Raise e, w') => (Raise e, w')
    end.

Declare Scope prog_scope.
Delimit Scope prog_scope with prog.
Notation "'let!' x ':=' c 'in' k" := (bind c (fun x => k))
  (at level 10, x pattern, c at level 100, k at level 200) : prog_scope.
Notation "c '>>' k" := (bind c (fun _ => k))
  (at level 100, k at level 200, right associativity) : prog_scope.
Local Open Scope prog_scope.

Definition logging (l : level) (m : text) : M unit :=
  fun w => (Ret tt, add_log l m w).

Definition path_exists (path : string) : M bool :=
  fun w => (Ret (bool_decide (is_Some (files w !! path))), w).

Definition read_file (path : string) : M text :=
  fun w =>
    match files w !! path with
    | Some t => (Ret (universal_newlines t), w)
    | None => (Raise (FileNotFoundError path), w)
    end.

Definition write_file (path : string) (content : text) : M unit :=
  fun w => (Ret tt, set_files (<[path := content]> (files w)) w).

Definition remove (path : string) : M unit :=
  fun w => (Ret tt, set_files (delete path (files w)) w).

(** [subprocess.run(command, shell=True, check=check_result)] and the
    test of its return code *)
Definition run_command (command : text) (check_result : bool) : M bool :=
  logging DEBUG (str "Running command: " ++ command) >>
  fun w =>
    let ok := exit_ok w command in
    if check_result && negb ok
    then (Raise (CalledProcessError command), add_cmd command w)
    else
      (logging DEBUG (if check_result then str "Command completed successfully"
                      else str "Command completed") >>
       ret ok) (add_cmd command w).

(** ** The command line arguments

    [debug] and [no_norminette] are attributes of the [compile] and
    [run] commands only: [None] stands for an absent attribute. *)
Record args : Type := mkArgs {
  libft : bool;
  minilibx : bool;
  debug : option bool;
  no_norminette : option bool
}.

(** ["debug" in args and args.debug] *)
Definition wants_debug (a : args) : bool :=
  match debug a with
  | Some b => b
  | None => false
  end.

(** ** Paths *)

Definition SLASH : ascii := "/"%char.

(** [os.path.join(a, b)] *)
Definition path_join (a b : text) : text :=
  if startswith [SLASH] b then b
  else if text_eqb a [] || endswith [SLASH] a then a ++ b
  else a ++ SLASH :: b.

(** The text after the last slash *)
Fixpoint basename (p : text) : text :=
  match p with
  | [] => []
  | c :: p' =>
      if contains [SLASH] p then basename p' else p
  end.

(** The text up to and with the last slash *)
Fixpoint head_of (p : text) : text :=
  match p with
  | [] => []
  | c :: p' => if contains [SLASH] p then c :: head_of p' else []
  end.

Fixpoint lstrip_slash (s : text) : text :=
  match s with
  | c :: s' => if Ascii.eqb c SLASH then lstrip_slash s' else s
  | [] => []
  end.

(** [os.path.dirname(p)] *)
Definition dirname (p : text) : text :=
  let head := head_of p in
  if forallb (Ascii.eqb SLASH) head then head
  else rev (lstrip_slash (rev head)).

Fixpoint get_all_files_entry (path : text) (e : entry) : list text :=
  match e with
  | File name => [path_join path name]
  | Dir name children =>
      flat_map (get_all_files_entry (path_join path name)) children
  end.

(** [get_all_files("src")] *)
Definition get_all_files_src : M (list text) :=
  fun w =>
    match src_dir w with
    | Some entries => (Ret (flat_map (get_all_files_entry (str "src")) entries), w)
    | None => (Raise (FileNotFoundError "src"), w)
    end.

Definition get_sources : M text :=
  let! files := get_all_files_src in
  ret (join (str " ") (filter (fun file => endswith (str ".c") file) files)).

Definition get_project_name : M text :=
  fun w => (Ret (basename (cwd w)), w).

(** ** The pieces of the rendered Makefile *)

Definition nl : text := [LF].

(** A line of text with its line feed; [tabbed] starts it with a tab. *)
Definition line (s : string) : text := str s ++ nl.
Definition tabbed (s : string) : text := TAB :: str s ++ nl.

Definition get_clean_commands (a : args) : text :=
  let commands := tabbed "$(RM) $(OBJS)" in
  let commands := if libft a then commands ++ tabbed "$(MAKE) -C libft clean" else commands in
  let commands := if minilibx a then commands ++ tabbed "$(MAKE) -C minilibx clean" else commands in
  rstrip commands.

Definition get_fclean_commands (a : args) : text :=
  let commands := tabbed "$(RM) $(OBJS) $(NAME)" in
  let commands := if libft a then commands ++ tabbed "$(MAKE) -C libft fclean" else commands in
  let commands := if minilibx a then commands ++ tabbed "$(MAKE) -C minilibx clean" else commands in
  rstrip commands.

Definition get_re_commands (a : args) : text :=
  let commands := [] in
  let commands := if libft a then commands ++ tabbed "$(MAKE) -C libft re" else commands in
  let commands := if minilibx a then commands ++ tabbed "$(MAKE) -C minilibx re" else commands in
  rstrip commands.

Definition get_libs (a : args) : text :=
  let libs := [] in
  let libs := if libft a then libs ++ str " libft/libft.a" else libs in
  let libs := if minilibx a then libs ++ str " minilibx/libmlx.a" else libs in
  strip libs.

Definition get_lib_rules (a : args) : text :=
  let rules := [] in
  let rules :=
    if libft a
    then rules ++ line "libft/libft.a:" ++ tabbed "$(MAKE) -C libft" ++ nl
    else rules in
  let rules :=
    if minilibx a
    then rules ++ line "minilibx/libmlx.a:" ++ tabbed "$(MAKE) -C minilibx" ++ nl
    else rules in
  let rules :=
    match rules with
    | [] => rules
    | _ :: _ => line "## Libraries ##" ++ nl ++ rules
    end in
  strip rules.

Definition get_c_flags (a : args) : text :=
  let c_flags := str "-Wall -Wextra -Werror -I./includes" in
  let c_flags := if wants_debug a then c_flags ++ str " -g" else c_flags in
  let c_flags := if libft a || minilibx a then c_flags ++ str " -I./" else c_flags in
  strip c_flags.

Definition get_ld_flags (a : args) : text :=
  let ld_flags := [] in
  let ld_flags := if libft a then ld_flags ++ str " -L./libft -lft" else ld_flags in
  let ld_flags :=
    if minilibx a then ld_flags ++ str " -L./minilibx -lmlx -lX11 -lXext -lm" else ld_flags in
  strip ld_flags.

(** The text [create_makefile] writes, given the value of
    [get_sources()] and of [get_project_name(args)] *)
Definition makefile_template (a : args) (sources name : text) : text :=
  line "# Generated using 42 tools, manual changes may be overwritten"
  ++ nl
  ++ line "## Commands ##"
  ++ nl
  ++ line "CC = cc"
  ++ str "CFLAGS = " ++ get_c_flags a ++ nl
  ++ str "LDFLAGS = " ++ get_ld_flags a ++ nl
  ++ line "RM = rm -f"
  ++ nl
  ++ line "## Files ##"
  ++ nl
  ++ str "SRCS = " ++ sources ++ nl
  ++ line "OBJS = $(SRCS:src/%.c=obj/%.o)"
  ++ nl
  ++ line "## Configuration ##"
  ++ nl
  ++ str "NAME = " ++ name ++ nl
  ++ nl
  ++ line "## Compilation rules ##"
  ++ nl
  ++ str "$(NAME): $(OBJS) " ++ get_libs a ++ nl
  ++ tabbed "$(CC) $(CFLAGS) $(LDFLAGS) -o $@ $^"
  ++ nl
  ++ line "obj/%.o: src/%.c"
  ++ tabbed "$(CC) $(CFLAGS) -c -o $@ $<"
  ++ nl
  ++ line "## Cleaning rules ##"
  ++ nl
  ++ line "clean:"
  ++ get_clean_commands a ++ nl
  ++ nl
  ++ line "fclean: clean"
  ++ get_fclean_commands a ++ nl
  ++ nl
  ++ line "re: fclean $(NAME)"
  ++ get_re_commands a ++ nl
  ++ nl
  ++ get_lib_rules a ++ nl.

(** The argument of [f.write] in [create_makefile]: the holes of the
    f-string are evaluated from the top, and [get_sources] is the one
    that can raise. *)
Definition render (a : args) : M text :=
  let! sources := get_sources in
  let! name := get_project_name in
  ret (makefile_template a sources name).

(** ** Patching a vendor build file *)

(** Lines 243 to 247: the new value of the flags *)
Definition new_cflags (a : args) (value : text) : text :=
  let cflags := strip value in
  if wants_debug a && negb (contains (str "-g") cflags)
  then strip (cflags ++ str " -g")
  else if negb (wants_debug a) && contains (str "-g") cflags
  then strip (replace (str "-g") [] cflags)
  else cflags.

(** The replacement of line 249 *)
Definition replacement (op cflags : text) : text :=
  str "CFLAGS " ++ op ++ str "= " ++ cflags.

Definition re_sub (r : regex) (repl s : text) : M text :=
  match sub r repl s with
  | Some t => ret t
  | None => raise TemplateError
  end.

(** The result is [None] where the source leaves through a bare
    [return]. *)
Definition update_makefile (path : string) (a : args) : M (option bool) :=
  logging DEBUG (str "Updating " ++ str path ++ str " Makefile") >>
  let! makefile := read_file path in
  let old_makefile := makefile in
  match findall cflags_re makefile with
  | [] =>
      logging ERROR (str "Could not find CFLAGS in " ++ str path
                     ++ str ", cannot compile with debug flags") >>
      ret None
  | m :: _ =>
      let cflags := new_cflags a (snd m) in
      let! makefile := re_sub cflags_re (replacement (fst m) cflags) makefile in
      if negb (text_eqb makefile old_makefile) then
        write_file path makefile >>
        logging DEBUG (str "Makefile updated") >>
        ret (Some true)
      else
        logging DEBUG (str "Makefile not modified") >>
        ret (Some false)
  end.

Definition update_libft_makefile (a : args) : M (option bool) :=
  logging DEBUG (str "Updating libft Makefile") >>
  update_makefile "libft/Makefile" a.

Definition update_minilibx_makefile (a : args) : M (option bool) :=
  logging DEBUG (str "Updating minilibx Makefile") >>
  update_makefile "minilibx/Makefile.mk" a.

(** The truth value of what [update_makefile] returns *)
Definition truthy (r : option bool) : bool :=
  match r with
  | Some b => b
  | None => false
  end.

(** ** Creating the Makefile *)

(** Lines 112 to 121: the text of the Makefile that is there, and
    whether it was deleted with a warning *)
Definition read_old_makefile (warn_if_exists : bool) : M (option text * bool) :=
  let! there := path_exists "Makefile" in
  if there then
    let! old_makefile := read_file "Makefile" in
    if warn_if_exists then
      logging WARNING (str "Deleting existing Makefile") >>
      remove "Makefile" >>
      ret (Some old_makefile, true)
    else ret (Some old_makefile, false)
  else ret (None, false).

(** Lines 123 to 163: [open] empties the file before the text to write
    is computed *)
Definition write_makefile (a : args) : M unit :=
  write_file "Makefile" [] >>
  let! content := render a in
  write_file "Makefile" content.

(** Lines 167 to 172 *)
Definition update_vendors (a : args) (modified : bool) : M bool :=
  let! modified :=
    (if libft a then
       let! r := update_libft_makefile a in
       ret (if truthy r then true else modified)
     else ret modified) in
  if minilibx a then
    let! r := update_minilibx_makefile a in
    ret (if truthy r then true else modified)
  else ret modified.

(** [not old_makefile or old_makefile != new] *)
Definition differs (old_makefile : option text) (new : text) : bool :=
  match old_makefile with
  | None => true
  | Some old => text_eqb old [] || negb (text_eqb old new)
  end.

Definition create_makefile (a : args) (warn_if_exists : bool) : M bool :=
  logging DEBUG (str "Creating Makefile") >>
  let! (old_makefile, modified) := read_old_makefile warn_if_exists in
  write_makefile a >>
  logging DEBUG (str "Makefile created/updated successfully") >>
  let! modified := update_vendors a modified in
  let! new := read_file "Makefile" in
  ret (if differs old_makefile new then true else modified).

(** ** Compiling *)

Definition run_norminette : M bool :=
  logging DEBUG (str "Running norminette") >>
  let! res := run_command (str "norminette src includes") false in
  logging DEBUG (if res then str "Norminette passed" else str "Norminette failed") >>
  ret res.

Fixpoint makedirs_all (files : list text) : M unit :=
  match files with
  | [] => ret tt
  | file :: files' =>
      (if endswith (str ".c") file
       then fun w => (Ret tt, add_dir (dirname (replace (str "src") (str "obj") file)) w)
       else ret tt) >>
      makedirs_all files'
  end.

Definition copy_source_structure : M unit :=
  logging DEBUG (str "Copying source structure to obj folder") >>
  let! files := get_all_files_src in
  makedirs_all files >>
  logging DEBUG (str "Source structure copied successfully").

Definition make_command (force_rebuild : bool) : text :=
  if force_rebuild then str "make" ++ str " -B" else str "make".

Definition run_make (a : args) (force_rebuild : bool) : M bool :=
  logging DEBUG (str "Running make") >>
  let! res := run_command (make_command force_rebuild) false in
  logging DEBUG (if res then str "Make passed" else str "Make failed") >>
  ret res.

(** ["no_norminette" not in args or not args.no_norminette] *)
Definition wants_norminette (a : args) : bool :=
  match no_norminette a with
  | Some b => negb b
  | None => true
  end.

Definition run_compile (a : args) : M bool :=
  logging DEBUG (str "Running compile") >>
  let! modified := create_makefile a false in
  (if wants_norminette a then run_norminette >> ret tt else ret tt) >>
  copy_source_structure >>
  let! ok := run_make a modified in
  if ok then logging INFO (str "Project compiled successfully") >> ret true
  else logging ERROR (str "Project failed to compile") >> ret false.

(** ** Worlds and inputs used in the examples *)

(** A world whose only file is the vendor build file [path] *)
Definition vendor_world (path : string) (t : text) : world :=
  mkWorld {[path := t]} (Some []) (str "/home/student/push_swap") [] [] []
          (fun _ => true).

Definition compile_args (with_libft with_minilibx with_debug : bool) : args :=
  mkArgs with_libft with_minilibx (Some with_debug) (Some false).

Definition init_args (with_libft with_minilibx : bool) : args :=
  mkArgs with_libft with_minilibx None None.

(** [s.split(sep)] for a one character separator *)
Fixpoint split_on (sep : ascii) (s : text) : list text :=
  match s with
  | [] => [[]]
  | c :: s' =>
      if Ascii.eqb c sep then [] :: split_on sep s'
      else match split_on sep s' with
           | l :: ls => (c :: l) :: ls
           | [] => [[c]]
           end
  end.

Definition lines (s : text) : list text := split_on LF s.

(** The flags of a flags value: its words between blanks *)
Definition flags_of (s : text) : list text := split_on " "%char s.

(** ** The flags line, read without backtracking

    What a match of the pattern at the start of a line comes to: the
    word [CFLAGS], the longest run of white space (line feeds with it),
    the operator, the equals sign, again the longest run of white
    space, and the rest of the line as the value. *)

Fixpoint run (p : ascii -> bool) (s : text) : text :=
  match s with
  | c :: s' => if p c then c :: run p s' else []
  | [] => []
  end.

Fixpoint after (p : ascii -> bool) (s : text) : text :=
  match s with
  | c :: s' => if p c then after p s' else s
  | [] => []
  end.

(** The operator and the text after the equals sign *)
Definition flags_operator (s : text) : option (text * text) :=
  match s with
  | c :: s' =>
      if Ascii.eqb c ":"%char then
        match s' with
        | e :: s'' => if Ascii.eqb e "="%char then Some ([c], s'') else None
        | [] => None
        end
      else if Ascii.eqb c "?"%char then
        match s' with
        | e :: s'' => if Ascii.eqb e "="%char then Some ([c], s'') else None
        | [] => None
        end
      else if Ascii.eqb c "="%char then Some ([], s')
      else None
  | [] => None
  end.

(** The length of the match that starts with [s], its operator and its
    value *)
Definition flags_line (s : text) : option (nat * text * text) :=
  if startswith (str "CFLAGS") s then
    let s1 := skipn 6 s in
    match flags_operator (after isspace s1) with
    | Some (op, s2) =>
        Some (6 + length (run isspace s1) + length op + 1
              + length (run isspace s2) + length (run notnl (after isspace s2)),
              op, run notnl (after isspace s2))
    | None => None
    end
  else None.

(** ** Observations used in the statements *)

(** What [update_makefile] makes of the text it read: no flags line, a
    replacement that [re.sub] refuses, or the text after [re.sub] *)
Inductive patched : Type :=
| NoFlags
| Refused
| Patched (t : text).

Definition patch_text (a : args) (makefile : text) : patched :=
  match findall cflags_re makefile with
  | [] => NoFlags
  | m :: _ =>
      match sub cflags_re (replacement (fst m) (new_cflags a (snd m))) makefile with
      | Some t => Patched t
      | None => Refused
      end
  end.

(** The text [create_makefile] leaves in the Makefile: the rendered
    text, or nothing when [src] is missing and rendering raised *)
Definition makefile_content (a : args) (w : world) : text :=
  match src_dir w with
  | Some entries =>
      makefile_template a
        (join (str " ")
           (filter (fun file => endswith (str ".c") file)
              (flat_map (get_all_files_entry (str "src")) entries)))
        (basename (cwd w))
  | None => []
  end.

(** Whether the patch of an included vendor build file reports a
    rewrite *)
Definition vendor_rewritten (a : args) (w : world) : bool :=
  match fst (update_vendors a false w) with
  | Ret b => b
  | Raise _ => false
  end.

(** The messages of [update_makefile] *)
Definition updating_message (path : string) : text :=
  str "Updating " ++ str path ++ str " Makefile".

Definition no_cflags_message (path : string) : text :=
  str "Could not find CFLAGS in " ++ str path
  ++ str ", cannot compile with debug flags".

(** ** Predicates and worlds of the statements *)

(** Worlds that differ in their files and their log only, and an
    invariant on the files of such worlds *)
Definition same_env (w0 w : world) : Prop :=
  src_dir w = src_dir w0 /\ cwd w = cwd w0 /\ cmds w = cmds w0
  /\ made_dirs w = made_dirs w0 /\ exit_ok w = exit_ok w0.

Definition files_inv (P : gmap string text -> Prop) (w0 w : world) : Prop :=
  P (files w) /\ same_env w0 w.

Definition stable {A : Type} (I : world -> Prop) (c : M A) : Prop :=
  forall w, I w -> I (snd (c w)).

(** Programs whose outcome does not depend on the Makefile or on the
    log: two worlds that agree on the other files give the same outcome
    and still agree afterwards. *)
Definition agree (w1 w2 : world) : Prop :=
  forall p, p <> "Makefile"%string -> files w1 !! p = files w2 !! p.

Definition respects {A : Type} (c : M A) : Prop :=
  forall w1 w2, agree w1 w2 ->
    fst (c w1) = fst (c w2) /\ agree (snd (c w1)) (snd (c w2)).

(** The world of a project made by [init] without libraries, as
    [compile] finds it: the Makefile holds the rendered text. *)
Definition rendered_world : world :=
  let w := mkWorld ∅ (Some [File (str "main.c")]) (str "/home/student/push_swap")
             [] [] [] (fun _ => true) in
  set_files {["Makefile"%string := makefile_content (init_args false false) w]} w.

(** The build file [path] is there and has no flags line *)
Definition no_flags_line (path : string) (w : world) : Prop :=
  exists t, files w !! path = Some t
            /\ findall cflags_re (universal_newlines t) = [].

(** A libft whose build file sets no [CFLAGS] *)
Definition plain_vendor_world : world :=
  vendor_world "libft/Makefile"
    (line "NAME = libft.a" ++ line "FLAGS = -Wall -Wextra -Werror"
     ++ line "all: $(NAME)").

(** Worlds with the same files and environment, the second with more
    commands run *)
Definition then_ran (w w' : world) (more : list text) : Prop :=
  files w' = files w /\ src_dir w' = src_dir w /\ cwd w' = cwd w
  /\ exit_ok w' = exit_ok w /\ cmds w' = cmds w ++ more.

(** No match of [r] starts inside [x] when [x] is followed by [y] *)
Definition no_match_before (r : regex) (pre x y : text) : Prop :=
  forall x1 c x2,
    x = x1 ++ c :: x2 -> match_at r (rev x1 ++ pre) (c :: x2 ++ y) = None.

(** A text whose only flags line is [m], between [before] and [after],
    with the operator [op] and the value [value] *)
Definition single_flags_line (t before m after op value : text) : Prop :=
  t = before ++ m ++ after
  /\ no_match_before cflags_re [] before (m ++ after)
  /\ at_bol (rev before) = true
  /\ flags_line (m ++ after) = Some (length m, op, value)
  /\ matches_from cflags_re (rev (before ++ m)) after 0 = [].

(** A text in which the character [x] does not occur *)
Definition lacks (x : ascii) (s : text) : bool :=
  forallb (fun c => negb (Ascii.eqb c x)) s.

(** A text without a backslash: as a replacement it stands for itself *)
Definition plain (s : text) : bool := lacks BACKSLASH s.

(** ** Names under [src]

    A directory entry has a name that is not empty and holds no
    slash. *)
Definition name_ok (name : text) : bool :=
  negb (text_eqb name []) && lacks SLASH name.


(** ** Running the project

    The arguments of the [run] command: the two switches of [compile],
    both present, the options handed to the program, and the two
    entries of the configuration file. *)
Record run_args : Type := mkRunArgs {
  config_libft : bool;
  config_minilibx : bool;
  run_debug : bool;
  run_no_norminette : bool;
  options : list text
}.

(** The same arguments as [run_compile] and [create_makefile] read
    them *)
Definition args_of (r : run_args) : args :=
  mkArgs (config_libft r) (config_minilibx r) (Some (run_debug r))
         (Some (run_no_norminette r)).

(** Each option between single quotes, with blanks in between *)
Definition quoted_options (r : run_args) : text :=
  join (str " ") (map (fun opt => str "'" ++ opt ++ str "'") (options r)).

Definition run_valgrind (r : run_args) : M unit :=
  logging DEBUG (str "Running valgrind") >>
  let options := quoted_options r in
  let! name := get_project_name in
  run_command (str "valgrind ./" ++ name ++ str " " ++ options) true >>
  ret tt.

Definition run_project (r : run_args) : M unit :=
  logging DEBUG (str "Running project") >>
  let options := quoted_options r in
  let! name := get_project_name in
  run_command (str "./" ++ name ++ str " " ++ options) true >>
  ret tt.

Definition run_run (r : run_args) : M unit :=
  logging DEBUG (str "Compiling and running project") >>
  let! compiled := run_compile (args_of r) in
  if negb compiled then ret tt
  else if run_debug r then run_valgrind r
  else run_project r.

(** ** Looking for a library next to the project

    [find_folder] raises a plain [Exception] when the search reaches the
    root; [there] is what [os.path.exists] answers, and the fuel bounds
    the turns of the loop. *)
Inductive search : Type :=
| Found (path : text)
| NotFound
| Unfinished.

Fixpoint find_folder_from (there : text -> bool) (target : text) (fuel : nat)
    (current_path : text) : M search :=
  match fuel with
  | O => ret Unfinished
  | S fuel' =>
      if text_eqb current_path [SLASH] then ret NotFound
      else
        let parent_path := dirname current_path in
        let target_path := path_join parent_path target in
        logging DEBUG (str "Checking " ++ target_path) >>
        if there target_path then
          logging DEBUG (target ++ str " folder found at " ++ target_path) >>
          ret (Found target_path)
        else find_folder_from there target fuel' parent_path
  end.

(** The path loses a character at every turn, so that its length
    bounds the turns. *)
Definition find_folder (there : text -> bool) (target : text) : M search :=
  logging DEBUG (str "Finding " ++ target ++ str " folder") >>
  fun w => find_folder_from there target (S (length (cwd w))) (cwd w) w.

(** The absolute path with the components [names] *)
Definition absolute (names : list text) : text :=
  match names with
  | [] => [SLASH]
  | _ :: _ => flat_map (fun name => SLASH :: name) names
  end.

(** * Properties *)

#[local] Arguments Ascii.eqb : simpl never.

(** ** Text lemmas *)

Lemma split_on_nonempty (sep : ascii) (s : text) : split_on sep s <> [].
Proof.
  destruct s as [|c s]; simpl; [discriminate|].
  destruct (Ascii.eqb c sep); [discriminate|].
  destruct (split_on sep s); discriminate.
Qed.

Lemma split_on_app (sep : ascii) (x y : text) :
  split_on sep (x ++ sep :: y) = split_on sep x ++ split_on sep y.
Proof.
  induction x as [|c x IH]; simpl.
  - rewrite Ascii.eqb_refl. reflexivity.
  - destruct (Ascii.eqb c sep); [now rewrite IH|].
    rewrite IH.
    pose proof (split_on_nonempty sep x) as Hx.
    destruct (split_on sep x) as [|l ls]; [contradiction|]. reflexivity.
Qed.

Lemma split_on_head (sep : ascii) (l y : text) :
  forallb (fun c => negb (Ascii.eqb c sep)) l = true ->
  exists ls, split_on sep (l ++ sep :: y) = l :: ls.
Proof.
  induction l as [|c l IH]; simpl; intros H.
  - rewrite Ascii.eqb_refl. eauto.
  - apply andb_prop in H as [Hc Hl].
    apply negb_true_iff in Hc. rewrite Hc.
    destruct (IH Hl) as [ls ->]. eauto.
Qed.

(** A text between two separators is one of the pieces. *)
Lemma in_split_on (sep : ascii) (x l y : text) :
  forallb (fun c => negb (Ascii.eqb c sep)) l = true ->
  In l (split_on sep (x ++ sep :: l ++ sep :: y)).
Proof.
  intros H. rewrite split_on_app. apply in_or_app. right.
  destruct (split_on_head sep l y H) as [ls ->]. now left.
Qed.

(** ** The rendered Makefile without optional libraries *)

Lemma get_c_flags_cases (a : args) :
  get_c_flags a =
  str "-Wall -Wextra -Werror -I./includes"
  ++ (if wants_debug a then str " -g" else [])
  ++ (if libft a || minilibx a then str " -I./" else []).
Proof.
  unfold get_c_flags.
  destruct (wants_debug a), (libft a), (minilibx a); vm_compute; reflexivity.
Qed.

Lemma target_line_in_makefile (a : args) (sources name : text) :
  In (str "$(NAME): $(OBJS) " ++ get_libs a)
     (lines (makefile_template a sources name)).
Proof.
  assert (Hl : forallb (fun c => negb (Ascii.eqb c LF))
                 (str "$(NAME): $(OBJS) " ++ get_libs a) = true).
  { unfold get_libs. destruct (libft a), (minilibx a); vm_compute; reflexivity. }
  pose proof (in_split_on LF
    (line "# Generated using 42 tools, manual changes may be overwritten"
     ++ nl ++ line "## Commands ##" ++ nl ++ line "CC = cc"
     ++ str "CFLAGS = " ++ get_c_flags a ++ nl
     ++ str "LDFLAGS = " ++ get_ld_flags a ++ nl
     ++ line "RM = rm -f" ++ nl ++ line "## Files ##" ++ nl
     ++ str "SRCS = " ++ sources ++ nl
     ++ line "OBJS = $(SRCS:src/%.c=obj/%.o)" ++ nl
     ++ line "## Configuration ##" ++ nl
     ++ str "NAME = " ++ name ++ nl ++ nl
     ++ str "## Compilation rules ##" ++ nl)
    (str "$(NAME): $(OBJS) " ++ get_libs a)
    (tabbed "$(CC) $(CFLAGS) $(LDFLAGS) -o $@ $^"
     ++ nl ++ line "obj/%.o: src/%.c" ++ tabbed "$(CC) $(CFLAGS) -c -o $@ $<"
     ++ nl ++ line "## Cleaning rules ##" ++ nl ++ line "clean:"
     ++ get_clean_commands a ++ nl ++ nl ++ line "fclean: clean"
     ++ get_fclean_commands a ++ nl ++ nl ++ line "re: fclean $(NAME)"
     ++ get_re_commands a ++ nl ++ nl ++ get_lib_rules a ++ nl) Hl) as Hin.
  unfold lines, makefile_template.
  unfold line, nl in *.
  repeat rewrite <- app_assoc in Hin. simpl in Hin.
  repeat rewrite <- app_assoc. simpl.
  exact Hin.
Qed.

Lemma cflags_line_in_makefile (a : args) (sources name : text) :
  In (str "CFLAGS = " ++ get_c_flags a)
     (lines (makefile_template a sources name)).
Proof.
  assert (Hl : forallb (fun c => negb (Ascii.eqb c LF))
                 (str "CFLAGS = " ++ get_c_flags a) = true).
  { rewrite get_c_flags_cases.
    destruct (wants_debug a), (libft a), (minilibx a); vm_compute; reflexivity. }
  pose proof (in_split_on LF
    (line "# Generated using 42 tools, manual changes may be overwritten"
     ++ nl ++ line "## Commands ##" ++ nl ++ str "CC = cc")
    (str "CFLAGS = " ++ get_c_flags a)
    (str "LDFLAGS = " ++ get_ld_flags a ++ nl
     ++ line "RM = rm -f" ++ nl ++ line "## Files ##" ++ nl
     ++ str "SRCS = " ++ sources ++ nl
     ++ line "OBJS = $(SRCS:src/%.c=obj/%.o)" ++ nl
     ++ line "## Configuration ##" ++ nl
     ++ str "NAME = " ++ name ++ nl ++ nl
     ++ line "## Compilation rules ##" ++ nl
     ++ str "$(NAME): $(OBJS) " ++ get_libs a ++ nl
     ++ tabbed "$(CC) $(CFLAGS) $(LDFLAGS) -o $@ $^"
     ++ nl ++ line "obj/%.o: src/%.c" ++ tabbed "$(CC) $(CFLAGS) -c -o $@ $<"
     ++ nl ++ line "## Cleaning rules ##" ++ nl ++ line "clean:"
     ++ get_clean_commands a ++ nl ++ nl ++ line "fclean: clean"
     ++ get_fclean_commands a ++ nl ++ nl ++ line "re: fclean $(NAME)"
     ++ get_re_commands a ++ nl ++ nl ++ get_lib_rules a ++ nl) Hl) as Hin.
  unfold lines, makefile_template.
  unfold line, nl in *.
  repeat rewrite <- app_assoc in Hin. simpl in Hin.
  repeat rewrite <- app_assoc. simpl.
  exact Hin.
Qed.

(** C8.  With both optional libraries disabled the primary target of
    the rendered Makefile has the object files as its only
    prerequisites (no archive follows [$(OBJS)]), and its [CFLAGS] are
    the strict flags, with [-g] under debug, without the flag [-I./];
    in every configuration the flag [-I./] is among the [CFLAGS]
    exactly when an optional library is included. *)
Theorem makefile_without_libraries :
  (forall (a : args) (sources name : text),
      libft a = false -> minilibx a = false ->
      get_libs a = []
      /\ In (str "$(NAME): $(OBJS) ") (lines (makefile_template a sources name))
      /\ get_c_flags a
         = str "-Wall -Wextra -Werror -I./includes"
           ++ (if wants_debug a then str " -g" else [])
      /\ In (str "CFLAGS = -Wall -Wextra -Werror -I./includes"
             ++ (if wants_debug a then str " -g" else []))
            (lines (makefile_template a sources name)))
  /\ (forall a : args,
         In (str "-I./") (flags_of (get_c_flags a))
         <-> libft a || minilibx a = true).
Proof.
  split.
  - intros a sources name Hl Hm.
    pose proof (target_line_in_makefile a sources name) as Ht.
    pose proof (cflags_line_in_makefile a sources name) as Hc.
    pose proof (get_c_flags_cases a) as Hf.
    assert (Hlibs : get_libs a = []).
    { unfold get_libs. rewrite Hl, Hm. reflexivity. }
    rewrite Hlibs, app_nil_r in Ht.
    rewrite Hl, Hm in Hf. simpl in Hf. rewrite app_nil_r in Hf.
    rewrite Hf in Hc.
    repeat split; assumption.
  - intros a. rewrite get_c_flags_cases.
    destruct (wants_debug a), (libft a), (minilibx a); vm_compute;
      split; intros H; try reflexivity; try discriminate;
      try (repeat (destruct H as [H|H]; [discriminate H|]); contradiction);
      try (right; right; right; right; right; left; reflexivity);
      try (right; right; right; right; left; reflexivity).
Qed.

Lemma makefile_without_libraries_witness :
  let a := init_args false false in
  let sources := str "src/main.c" in
  let name := str "push_swap" in
  get_libs a = []
  /\ In (str "$(NAME): $(OBJS) ") (lines (makefile_template a sources name))
  /\ get_c_flags a = str "-Wall -Wextra -Werror -I./includes"
  /\ In (str "CFLAGS = -Wall -Wextra -Werror -I./includes")
        (lines (makefile_template a sources name)).
Proof.
  intros a sources name.
  exact (proj1 makefile_without_libraries a sources name eq_refl eq_refl).
Defined.

(** ** The debug marker *)

Lemma replace_from_marker_piece (p rest : text) :
  contains (str "-g") p = false ->
  replace_from (str "-g") [] (p ++ str "-g" ++ rest) 0
  = p ++ replace_from (str "-g") [] rest 0.
Proof.
  induction p as [|c q IH]; intros Hp.
  - reflexivity.
  - cbn [contains] in Hp. apply orb_false_iff in Hp as [Hs Hq].
    cbn [app replace_from].
    assert (Hs' : startswith (str "-g") (c :: q ++ str "-g" ++ rest) = false).
    { destruct q as [|d q']; [|exact Hs].
      cbn [app str list_ascii_of_string startswith].
      destruct (Ascii.eqb "-" c); reflexivity. }
    rewrite Hs'. f_equal. apply IH, Hq.
Qed.

Lemma replace_from_no_marker (p : text) :
  contains (str "-g") p = false ->
  replace_from (str "-g") [] p 0 = p.
Proof.
  induction p as [|c q IH]; intros Hp; [reflexivity|].
  cbn [contains] in Hp. apply orb_false_iff in Hp as [Hs Hq].
  cbn [replace_from]. rewrite Hs. f_equal. apply IH, Hq.
Qed.

(** Every occurrence goes: a text cut at its markers loses them all. *)
Lemma replace_removes_every_marker (ps : list text) :
  Forall (fun p => contains (str "-g") p = false) ps ->
  replace (str "-g") [] (join (str "-g") ps) = concat ps.
Proof.
  change (replace (str "-g") [] (join (str "-g") ps))
    with (replace_from (str "-g") [] (join (str "-g") ps) 0).
  induction 1 as [|p ps Hp Hps IH]; [reflexivity|].
  destruct ps as [|p' ps'].
  - cbn [join concat]. rewrite app_nil_r. apply replace_from_no_marker, Hp.
  - change (join (str "-g") (p :: p' :: ps'))
      with (p ++ str "-g" ++ join (str "-g") (p' :: ps')).
    rewrite replace_from_marker_piece by exact Hp.
    rewrite IH. reflexivity.
Qed.

(** C9.  The debug marker is looked for anywhere in the flags value.
    Without debug, a value that holds the two characters [-g] loses
    every occurrence of them (a value cut at its markers becomes the
    pieces put together, so [-ggdb] becomes [gdb]); with debug, a value
    that holds them anywhere is kept as it is, so a value whose only
    flag is [-ggdb] gains no [-g]. *)
Theorem debug_marker_is_substring :
  (forall (a : args) (value : text),
      wants_debug a = false ->
      contains (str "-g") (strip value) = true ->
      new_cflags a value = strip (replace (str "-g") [] (strip value)))
  /\ (forall ps : list text,
         Forall (fun p => contains (str "-g") p = false) ps ->
         replace (str "-g") [] (join (str "-g") ps) = concat ps)
  /\ (forall (a : args) (value : text),
         wants_debug a = true ->
         contains (str "-g") (strip value) = true ->
         new_cflags a value = strip value)
  /\ (let path := "libft/Makefile"%string in
      let w := vendor_world path (line "CFLAGS = -O2 -ggdb") in
      let off := update_makefile path (compile_args true false false) w in
      let on := update_makefile path (compile_args true false true) w in
      fst off = Ret (Some true)
      /\ files (snd off) !! path = Some (line "CFLAGS = -O2 gdb")
      /\ fst on = Ret (Some false)
      /\ files (snd on) !! path = Some (line "CFLAGS = -O2 -ggdb")).
Proof.
  split; [|split; [|split]].
  - intros a value Hd Hc. unfold new_cflags. rewrite Hd, Hc. reflexivity.
  - apply replace_removes_every_marker.
  - intros a value Hd Hc. unfold new_cflags. rewrite Hd, Hc. reflexivity.
  - vm_compute. repeat split; reflexivity.
Qed.

Lemma debug_marker_is_substring_witness :
  new_cflags (compile_args true false false) (str "-O2 -ggdb -g3 ")
  = str "-O2 gdb 3"
  /\ replace (str "-g") [] (str "-O2 -ggdb -g3") = str "-O2 gdb 3"
  /\ new_cflags (compile_args true false true) (str "-ggdb") = str "-ggdb".
Proof.
  destruct debug_marker_is_substring as (Hoff & Hall & Hon & _).
  split; [|split].
  - exact (Hoff (compile_args true false false) (str "-O2 -ggdb -g3 ")
             eq_refl eq_refl).
  - apply (Hall [str "-O2 "; str "gdb "; str "3"]).
    repeat constructor.
  - exact (Hon (compile_args true false true) (str "-ggdb") eq_refl eq_refl).
Defined.

(** ** What the programs do to the world *)

Lemma update_makefile_unfold (path : string) (a : args) (w : world) :
  update_makefile path a w =
  let w1 := add_log DEBUG (updating_message path) w in
  match files w !! path with
  | None => (Raise (FileNotFoundError path), w1)
  | Some t =>
      match patch_text a (universal_newlines t) with
      | NoFlags => (Ret None, add_log ERROR (no_cflags_message path) w1)
      | Refused => (Raise TemplateError, w1)
      | Patched t' =>
          if text_eqb t' (universal_newlines t)
          then (Ret (Some false), add_log DEBUG (str "Makefile not modified") w1)
          else (Ret (Some true),
                add_log DEBUG (str "Makefile updated")
                  (set_files (<[path := t']> (files w1)) w1))
      end
  end.
Proof.
  unfold update_makefile, patch_text, bind, logging, read_file, re_sub, ret,
    raise, write_file, updating_message, no_cflags_message.
  cbn [files add_log].
  destruct (files w !! path) as [t|]; [|reflexivity].
  destruct (findall cflags_re (universal_newlines t)) as [|m ms]; [reflexivity|].
  destruct (sub cflags_re _ _) as [t'|]; [|reflexivity].
  destruct (text_eqb t' (universal_newlines t)); reflexivity.
Qed.

Lemma stable_bind {A B : Type} (I : world -> Prop) (c : M A) (k : A -> M B) :
  stable I c -> (forall x, stable I (k x)) -> stable I (bind c k).
Proof.
  intros Hc Hk w Hw. unfold bind.
  specialize (Hc w Hw). destruct (c w) as [[x|e] w']; simpl in Hc.
  - apply Hk, Hc.
  - exact Hc.
Qed.

Lemma stable_ret {A : Type} (I : world -> Prop) (x : A) : stable I (ret x).
Proof. intros w Hw. exact Hw. Qed.

Lemma stable_raise {A : Type} (I : world -> Prop) (e : exn) :
  stable I (@raise A e).
Proof. intros w Hw. exact Hw. Qed.

Section FilesInvariant.
Variable P : gmap string text -> Prop.
Variable w0 : world.

Lemma stable_logging (l : level) (m : text) :
  stable (files_inv P w0) (logging l m).
Proof. intros w Hw. exact Hw. Qed.

Lemma stable_read_file (path : string) :
  stable (files_inv P w0) (read_file path).
Proof.
  intros w Hw. unfold read_file. destruct (files w !! path); exact Hw.
Qed.

Lemma stable_path_exists (path : string) :
  stable (files_inv P w0) (path_exists path).
Proof. intros w Hw. exact Hw. Qed.

Lemma stable_write_file (path : string) (content : text) :
  (forall f, P f -> P (<[path := content]> f)) ->
  stable (files_inv P w0) (write_file path content).
Proof.
  intros HP w [Hf He]. split; [|exact He].
  apply HP, Hf.
Qed.

Lemma stable_remove (path : string) :
  (forall f, P f -> P (delete path f)) ->
  stable (files_inv P w0) (remove path).
Proof.
  intros HP w [Hf He]. split; [|exact He].
  apply HP, Hf.
Qed.

Lemma stable_update_makefile (path : string) (a : args) :
  (forall f c, P f -> P (<[path := c]> f)) ->
  stable (files_inv P w0) (update_makefile path a).
Proof.
  intros HP w Hw. rewrite update_makefile_unfold. cbn zeta.
  destruct (files w !! path) as [t|]; [|exact Hw].
  destruct (patch_text a (universal_newlines t)) as [| |t']; try exact Hw.
  destruct (text_eqb t' (universal_newlines t)); [exact Hw|].
  destruct Hw as [Hf He]. split; [|exact He].
  apply HP, Hf.
Qed.

Lemma stable_update_vendors (a : args) (modified : bool) :
  (forall f c, P f -> P (<["libft/Makefile"%string := c]> f)) ->
  (forall f c, P f -> P (<["minilibx/Makefile.mk"%string := c]> f)) ->
  stable (files_inv P w0) (update_vendors a modified).
Proof.
  intros H1 H2. unfold update_vendors.
  apply stable_bind.
  - destruct (libft a); [|apply stable_ret].
    apply stable_bind; [|intros; apply stable_ret].
    unfold update_libft_makefile.
    apply stable_bind; [apply stable_logging|intros _].
    apply stable_update_makefile, H1.
  - intros m. destruct (minilibx a); [|apply stable_ret].
    apply stable_bind; [|intros; apply stable_ret].
    unfold update_minilibx_makefile.
    apply stable_bind; [apply stable_logging|intros _].
    apply stable_update_makefile, H2.
Qed.
End FilesInvariant.

Lemma same_env_refl (w : world) : same_env w w.
Proof. repeat split. Qed.

Lemma same_env_trans (w0 w1 w2 : world) :
  same_env w0 w1 -> same_env w1 w2 -> same_env w0 w2.
Proof.
  intros (H1 & H2 & H3 & H4 & H5) (K1 & K2 & K3 & K4 & K5).
  repeat split; congruence.
Qed.

Lemma makefile_content_env (a : args) (w0 w : world) :
  same_env w0 w -> makefile_content a w = makefile_content a w0.
Proof.
  intros (Hs & Hd & _). unfold makefile_content. rewrite Hs, Hd. reflexivity.
Qed.

Lemma read_old_makefile_returns (warn : bool) (w : world) :
  exists w',
    read_old_makefile warn w
    = (Ret (universal_newlines <$> files w !! "Makefile",
            warn && bool_decide (is_Some (files w !! "Makefile"))), w')
    /\ same_env w w'
    /\ (forall p, p <> "Makefile"%string -> files w' !! p = files w !! p).
Proof.
  unfold read_old_makefile, bind, path_exists, read_file, logging, remove, ret.
  destruct (files w !! "Makefile") as [t|] eqn:Hm.
  - rewrite bool_decide_eq_true_2 by eauto.
    destruct warn; cbn; rewrite Hm; cbn.
    + eexists. split; [reflexivity|]. split; [repeat split|].
      intros p Hp. apply lookup_delete_ne. congruence.
    + eexists. split; [reflexivity|]. split; [apply same_env_refl|].
      reflexivity.
  - rewrite bool_decide_eq_false_2 by (intros [? ?]; discriminate).
    rewrite andb_false_r.
    eexists. split; [reflexivity|]. split; [apply same_env_refl|].
    reflexivity.
Qed.

Lemma write_makefile_post (a : args) (w : world) :
  let w' := snd (write_makefile a w) in
  files w' !! "Makefile" = Some (makefile_content a w)
  /\ same_env w w'
  /\ (forall p, p <> "Makefile"%string -> files w' !! p = files w !! p)
  /\ (is_Some (src_dir w) -> fst (write_makefile a w) = Ret tt).
Proof.
  unfold write_makefile, render, get_sources, get_all_files_src,
    get_project_name, makefile_content, bind, write_file, ret.
  cbn [src_dir set_files].
  destruct (src_dir w) as [entries|] eqn:Hsrc; cbn; rewrite ?Hsrc; cbn.
  - split; [apply lookup_insert_eq|]. split; [repeat split|].
    split; [|reflexivity].
    intros p Hp. rewrite !lookup_insert_ne by congruence. reflexivity.
  - split; [apply lookup_insert_eq|]. split; [repeat split|].
    split; [|intros [? ?]; discriminate].
    intros p Hp. rewrite lookup_insert_ne by congruence. reflexivity.
Qed.

(** The steps of [create_makefile] after the Makefile is written keep
    the Makefile and the environment. *)
Lemma stable_after_write (a : args) (old : option text) (modified : bool)
    (v : option text) (w0 : world) :
  stable (files_inv (fun f => f !! "Makefile" = v) w0)
    (logging DEBUG (str "Makefile created/updated successfully") >>
     let! modified := update_vendors a modified in
     let! new := read_file "Makefile" in
     ret (if differs old new then true else modified)).
Proof.
  apply stable_bind; [apply stable_logging|intros _].
  apply stable_bind.
  - apply stable_update_vendors; intros f c Hf;
      rewrite lookup_insert_ne by discriminate; exact Hf.
  - intros m. apply stable_bind; [apply stable_read_file|].
    intros new. apply stable_ret.
Qed.

Lemma create_makefile_unfold (a : args) (warn : bool) (w : world) :
  exists w1,
    same_env w w1
    /\ (forall p, p <> "Makefile"%string -> files w1 !! p = files w !! p)
    /\ create_makefile a warn w =
       match write_makefile a w1 with
       | (Ret _, w2) =>
           (logging DEBUG (str "Makefile created/updated successfully") >>
            let! modified :=
              update_vendors a
                (warn && bool_decide (is_Some (files w !! "Makefile"))) in
            let! new := read_file "Makefile" in
            ret (if differs (universal_newlines <$> files w !! "Makefile") new
                 then true else modified)) w2
       | (Raise e, w2) => (Raise e, w2)
       end.
Proof.
  destruct (read_old_makefile_returns warn
              (add_log DEBUG (str "Creating Makefile") w))
    as (w1 & Hr & He & Hf).
  exists w1. repeat split; try apply He; try assumption.
  unfold create_makefile.
  unfold bind at 1. unfold logging at 1.
  unfold bind at 1. rewrite Hr. cbn [files add_log].
  unfold bind at 1. reflexivity.
Qed.

Lemma create_makefile_writes (a : args) (warn : bool) (w : world) :
  let w' := snd (create_makefile a warn w) in
  files w' !! "Makefile" = Some (makefile_content a w)
  /\ same_env w w'.
Proof.
  destruct (create_makefile_unfold a warn w) as (w1 & He & _ & ->).
  pose proof (write_makefile_post a w1) as (Hm & He2 & _ & _).
  rewrite (makefile_content_env a w w1 He) in Hm.
  pose proof (same_env_trans _ _ _ He He2) as He3.
  destruct (write_makefile a w1) as [[[]|e] w2]; cbn [snd] in *.
  - apply (stable_after_write a _ _ (Some (makefile_content a w)) w w2).
    split; assumption.
  - split; assumption.
Qed.

(** C1.  Creating the Makefile a second time, with the same arguments
    and with nothing changed in between, leaves in the Makefile the
    very text the first creation left there: the text rendered from the
    arguments, the source tree and the name of the working directory.
    This holds in the mode that warns and in the silent one, and also
    when a vendor build file makes the creation raise. *)
Theorem create_makefile_deterministic (a : args) (warn warn' : bool) (w : world) :
  let first := snd (create_makefile a warn w) in
  let second := snd (create_makefile a warn' first) in
  files first !! "Makefile" = Some (makefile_content a w)
  /\ files second !! "Makefile" = files first !! "Makefile".
Proof.
  intros first second.
  destruct (create_makefile_writes a warn w) as (H1 & He).
  destruct (create_makefile_writes a warn' first) as (H2 & _).
  fold first in H1, He. fold second in H2.
  split; [exact H1|].
  rewrite H1, H2. f_equal.
  apply makefile_content_env, He.
Qed.

Lemma respects_bind {A B : Type} (c : M A) (k : A -> M B) :
  respects c -> (forall x, respects (k x)) -> respects (bind c k).
Proof.
  intros Hc Hk w1 w2 Hw. unfold bind.
  destruct (Hc w1 w2 Hw) as [Hf Hs].
  destruct (c w1) as [[x1|e1] w1'], (c w2) as [[x2|e2] w2'];
    cbn [fst snd] in *; try discriminate.
  - injection Hf as ->. apply Hk, Hs.
  - injection Hf as ->. split; [reflexivity|exact Hs].
Qed.

Lemma respects_ret {A : Type} (x : A) : respects (ret x).
Proof. intros w1 w2 Hw. split; [reflexivity|exact Hw]. Qed.

Lemma respects_logging (l : level) (m : text) : respects (logging l m).
Proof. intros w1 w2 Hw. split; [reflexivity|exact Hw]. Qed.

Lemma respects_update_makefile (path : string) (a : args) :
  path <> "Makefile"%string -> respects (update_makefile path a).
Proof.
  intros Hp w1 w2 Hw. rewrite !update_makefile_unfold. cbn zeta.
  rewrite <- (Hw path Hp).
  destruct (files w1 !! path) as [t|]; [|split; [reflexivity|exact Hw]].
  destruct (patch_text a (universal_newlines t)) as [| |t'];
    try (split; [reflexivity|exact Hw]).
  destruct (text_eqb t' (universal_newlines t));
    [split; [reflexivity|exact Hw]|].
  split; [reflexivity|].
  intros p Hne. cbn [files add_log set_files snd].
  destruct (decide (path = p)) as [->|Hpp].
  - rewrite !lookup_insert_eq. reflexivity.
  - rewrite !lookup_insert_ne by exact Hpp. apply Hw, Hne.
Qed.

Lemma respects_update_vendors (a : args) (modified : bool) :
  respects (update_vendors a modified).
Proof.
  unfold update_vendors. apply respects_bind.
  - destruct (libft a); [|apply respects_ret].
    apply respects_bind; [|intros; apply respects_ret].
    apply respects_bind; [apply respects_logging|intros _].
    apply respects_update_makefile. discriminate.
  - intros m. destruct (minilibx a); [|apply respects_ret].
    apply respects_bind; [|intros; apply respects_ret].
    apply respects_bind; [apply respects_logging|intros _].
    apply respects_update_makefile. discriminate.
Qed.

Lemma update_vendors_modified (a : args) (modified : bool) (w : world) :
  update_vendors a modified w =
  match update_vendors a false w with
  | (Ret b, w') => (Ret (modified || b), w')
  | (Raise e, w') => (Raise e, w')
  end.
Proof.
  unfold update_vendors, bind, ret.
  destruct (libft a).
  - destruct (update_libft_makefile a w) as [[r1|e1] w1]; [|reflexivity].
    destruct (minilibx a).
    + destruct (update_minilibx_makefile a w1) as [[r2|e2] w2]; [|reflexivity].
      destruct (truthy r1), (truthy r2), modified; reflexivity.
    + destruct (truthy r1), modified; reflexivity.
  - destruct (minilibx a).
    + destruct (update_minilibx_makefile a w) as [[r2|e2] w2]; [|reflexivity].
      destruct (truthy r2), modified; reflexivity.
    + destruct modified; reflexivity.
Qed.

(** The value [create_makefile] returns, when it returns *)
Lemma create_makefile_result (a : args) (warn : bool) (w : world)
    (m : bool) (w' : world) :
  create_makefile a warn w = (Ret m, w') ->
  files w' !! "Makefile" = Some (makefile_content a w)
  /\ m = differs (universal_newlines <$> files w !! "Makefile")
           (universal_newlines (makefile_content a w))
         || (warn && bool_decide (is_Some (files w !! "Makefile")))
         || vendor_rewritten a w.
Proof.
  intros Hrun.
  pose proof (create_makefile_writes a warn w) as (Hm & _).
  rewrite Hrun in Hm. cbn [snd] in Hm. split; [exact Hm|].
  destruct (create_makefile_unfold a warn w) as (w1 & He & Hf & Heq).
  rewrite Heq in Hrun. clear Heq.
  pose proof (write_makefile_post a w1) as (_ & _ & Hf2 & _).
  destruct (write_makefile a w1) as [[[]|e] w2]; [|discriminate].
  cbn [snd] in Hf2.
  unfold bind at 1 in Hrun. unfold logging at 1 in Hrun.
  unfold bind at 1 in Hrun.
  rewrite update_vendors_modified in Hrun.
  set (w3 := add_log DEBUG (str "Makefile created/updated successfully") w2) in *.
  assert (Hag : agree w3 w).
  { intros p Hp. unfold w3. cbn [files add_log].
    rewrite Hf2, Hf by exact Hp. reflexivity. }
  destruct (respects_update_vendors a false w3 w Hag) as [Hfst _].
  unfold vendor_rewritten. rewrite <- Hfst.
  destruct (update_vendors a false w3) as [[b|e] w4] eqn:Hv; [|discriminate].
  cbn [fst].
  unfold bind at 1 in Hrun. unfold read_file in Hrun.
  destruct (files w4 !! "Makefile") as [new|] eqn:Hnew; [|discriminate].
  cbn in Hrun. injection Hrun as Hmv Hw. subst w'.
  rewrite Hm in Hnew. injection Hnew as <-.
  rewrite <- Hmv.
  destruct (differs _ _), (warn && _), b; reflexivity.
Qed.

Lemma differs_false (old : option text) (new : text) :
  differs old new = false <-> exists t, old = Some t /\ t <> [] /\ new = t.
Proof.
  unfold differs, text_eqb. split.
  - destruct old as [t|]; [|discriminate]. intros H.
    apply orb_false_iff in H as [H1 H2].
    apply bool_decide_eq_false in H1.
    apply negb_false_iff, bool_decide_eq_true in H2.
    exists t. repeat split; [exact H1|symmetry; exact H2].
  - intros (t & -> & Hne & ->).
    rewrite (bool_decide_eq_false_2 _ Hne).
    rewrite (bool_decide_eq_true_2 (t = t) eq_refl). reflexivity.
Qed.

(** C2, as the code has it.  When [create_makefile] returns, its result
    is true if there was no Makefile before; and it is false exactly
    when the Makefile that was there is not empty and reads the same as
    the one just rendered, the call is the silent one of [compile], and
    the patch of no included vendor build file reported a rewrite. *)
Theorem create_makefile_modified (a : args) (warn : bool) (w : world)
    (m : bool) (w' : world) :
  create_makefile a warn w = (Ret m, w') ->
  let old := universal_newlines <$> files w !! "Makefile" in
  let new := universal_newlines <$> files w' !! "Makefile" in
  (old = None -> m = true)
  /\ (m = false <->
      (exists t, old = Some t /\ t <> [] /\ new = Some t)
      /\ warn = false
      /\ vendor_rewritten a w = false).
Proof.
  intros Hrun old new.
  destruct (create_makefile_result a warn w m w' Hrun) as [Hnew Hm].
  fold old in Hm. subst new. rewrite Hnew. cbn [fmap option_fmap option_map].
  split.
  - intros Hold. rewrite Hm, Hold. reflexivity.
  - rewrite Hm. rewrite !orb_false_iff, differs_false. split.
    + intros [[(t & Ht & Hne & Heq) Hw] Hv].
      repeat split; [| |exact Hv].
      * exists t. rewrite Heq. repeat split; assumption.
      * destruct warn; [|reflexivity].
        unfold old in Ht. destruct (files w !! "Makefile") eqn:Hf; [|discriminate].
        rewrite bool_decide_eq_true_2 in Hw by eauto. discriminate.
    + intros ((t & Ht & Hne & Heq) & -> & Hv).
      injection Heq as Heq.
      repeat split; [|exact Hv]. exists t. repeat split; assumption.
Qed.

Lemma create_makefile_modified_witness :
  let a := init_args false false in
  let w := rendered_world in
  let w' := snd (create_makefile a false w) in
  let old := universal_newlines <$> files w !! "Makefile" in
  let new := universal_newlines <$> files w' !! "Makefile" in
  (old = None -> false = true)
  /\ (false = false <->
      (exists t, old = Some t /\ t <> [] /\ new = Some t)
      /\ false = false
      /\ vendor_rewritten a w = false).
Proof.
  intros a w w'.
  apply (create_makefile_modified a false w false w').
  vm_compute. reflexivity.
Defined.

(** C2 as stated fails in the mode that warns: [init] on a project
    whose Makefile already holds the rendered text reports a change,
    though the new text is the old one. *)
Lemma create_makefile_warn_counterexample :
  let a := init_args false false in
  let w := rendered_world in
  let run := create_makefile a true w in
  universal_newlines <$> files (snd run) !! "Makefile"
  = universal_newlines <$> files w !! "Makefile"
  /\ fst run = Ret true.
Proof. vm_compute. split; reflexivity. Qed.

(** ** A vendor build file without a flags line *)

Lemma update_makefile_no_flags (path : string) (a : args) (w : world) (t : text) :
  files w !! path = Some t ->
  findall cflags_re (universal_newlines t) = [] ->
  update_makefile path a w
  = (Ret None,
     add_log ERROR (no_cflags_message path)
       (add_log DEBUG (updating_message path) w)).
Proof.
  intros Hf Hn. rewrite update_makefile_unfold. cbn zeta.
  rewrite Hf. unfold patch_text. rewrite Hn. reflexivity.
Qed.

Lemma update_vendors_no_flags (a : args) (modified : bool) (w : world) :
  (libft a = true -> no_flags_line "libft/Makefile" w) ->
  (minilibx a = true -> no_flags_line "minilibx/Makefile.mk" w) ->
  exists w',
    update_vendors a modified w = (Ret modified, w')
    /\ files w' = files w
    /\ (libft a = true ->
        In (ERROR, no_cflags_message "libft/Makefile") (log w'))
    /\ (minilibx a = true ->
        In (ERROR, no_cflags_message "minilibx/Makefile.mk") (log w')).
Proof.
  intros Hl Hm. unfold update_vendors, update_libft_makefile,
    update_minilibx_makefile.
  destruct (libft a), (minilibx a).
  - destruct (Hl eq_refl) as (t1 & Ht1 & Hn1).
    destruct (Hm eq_refl) as (t2 & Ht2 & Hn2).
    unfold bind, logging, ret.
    rewrite (update_makefile_no_flags _ a _ t1) by (cbn; assumption).
    cbn [truthy].
    rewrite (update_makefile_no_flags _ a _ t2) by (cbn; assumption).
    eexists. split; [reflexivity|]. cbn [files log add_log truthy].
    repeat split; intros _; rewrite !in_app_iff; cbn; tauto.
  - destruct (Hl eq_refl) as (t1 & Ht1 & Hn1).
    unfold bind, logging, ret.
    rewrite (update_makefile_no_flags _ a _ t1) by (cbn; assumption).
    eexists. split; [reflexivity|]. cbn [files log add_log truthy].
    repeat split; intros H; try discriminate; rewrite !in_app_iff; cbn; tauto.
  - destruct (Hm eq_refl) as (t2 & Ht2 & Hn2).
    unfold bind, logging, ret.
    rewrite (update_makefile_no_flags _ a _ t2) by (cbn; assumption).
    eexists. split; [reflexivity|]. cbn [files log add_log truthy].
    repeat split; intros H; try discriminate; rewrite !in_app_iff; cbn; tauto.
  - unfold bind, ret. eexists. split; [reflexivity|].
    repeat split; intros H; discriminate.
Qed.

Lemma create_makefile_no_flags (a : args) (warn : bool) (w : world) :
  is_Some (src_dir w) ->
  (libft a = true -> no_flags_line "libft/Makefile" w) ->
  (minilibx a = true -> no_flags_line "minilibx/Makefile.mk" w) ->
  exists m w',
    create_makefile a warn w = (Ret m, w')
    /\ (forall p, p <> "Makefile"%string -> files w' !! p = files w !! p)
    /\ (libft a = true ->
        In (ERROR, no_cflags_message "libft/Makefile") (log w'))
    /\ (minilibx a = true ->
        In (ERROR, no_cflags_message "minilibx/Makefile.mk") (log w')).
Proof.
  intros Hsrc Hl Hm.
  destruct (create_makefile_unfold a warn w) as (w1 & He & Hf & ->).
  pose proof (write_makefile_post a w1) as (Hc & _ & Hf2 & Hret).
  rewrite (proj1 He) in Hret. specialize (Hret Hsrc).
  destruct (write_makefile a w1) as [r w2]. cbn [fst snd] in *. subst r.
  set (w3 := add_log DEBUG (str "Makefile created/updated successfully") w2).
  assert (Hf3 : forall p, p <> "Makefile"%string -> files w3 !! p = files w !! p).
  { intros p Hp. unfold w3. cbn [files add_log]. rewrite Hf2, Hf by exact Hp.
    reflexivity. }
  assert (Hl3 : libft a = true -> no_flags_line "libft/Makefile" w3).
  { intros H. destruct (Hl H) as (t & Ht & Hn). exists t.
    rewrite Hf3 by discriminate. split; assumption. }
  assert (Hm3 : minilibx a = true -> no_flags_line "minilibx/Makefile.mk" w3).
  { intros H. destruct (Hm H) as (t & Ht & Hn). exists t.
    rewrite Hf3 by discriminate. split; assumption. }
  destruct (update_vendors_no_flags a
              (warn && bool_decide (is_Some (files w !! "Makefile"))) w3 Hl3 Hm3)
    as (w4 & Hv & Hf4 & Hlog1 & Hlog2).
  unfold bind at 1. unfold logging at 1. fold w3.
  unfold bind at 1. rewrite Hv.
  unfold bind, read_file, ret. rewrite Hf4.
  unfold w3 at 1. cbn [files add_log]. rewrite Hc.
  eexists _, w4. split; [reflexivity|].
  split; [|split; assumption].
  intros p Hp. rewrite Hf4. apply Hf3, Hp.
Qed.

(** C6.  A vendor build file with no flags line is left as it is: the
    patch logs an error and returns without a result, raising nothing;
    and when the source tree is there and every included vendor build
    file is such a file, [create_makefile] returns, with the vendor
    build files unchanged and the error in the log. *)
Theorem missing_flags_line_is_not_fatal :
  (forall (path : string) (a : args) (w : world) (t : text),
      files w !! path = Some t ->
      findall cflags_re (universal_newlines t) = [] ->
      let run := update_makefile path a w in
      fst run = Ret None
      /\ files (snd run) = files w
      /\ log (snd run)
         = log w ++ [(DEBUG, updating_message path);
                     (ERROR, no_cflags_message path)])
  /\ (forall (a : args) (warn : bool) (w : world),
         is_Some (src_dir w) ->
         (libft a = true -> no_flags_line "libft/Makefile" w) ->
         (minilibx a = true -> no_flags_line "minilibx/Makefile.mk" w) ->
         exists m w',
           create_makefile a warn w = (Ret m, w')
           /\ (forall p, p <> "Makefile"%string -> files w' !! p = files w !! p)
           /\ (libft a = true ->
               In (ERROR, no_cflags_message "libft/Makefile") (log w'))
           /\ (minilibx a = true ->
               In (ERROR, no_cflags_message "minilibx/Makefile.mk") (log w'))).
Proof.
  split.
  - intros path a w t Hf Hn run. unfold run.
    rewrite (update_makefile_no_flags path a w t Hf Hn).
    cbn [fst snd files log add_log]. rewrite <- app_assoc.
    repeat split.
  - apply create_makefile_no_flags.
Qed.

Lemma missing_flags_line_is_not_fatal_witness :
  let a := compile_args true false true in
  let w := plain_vendor_world in
  (fst (update_makefile "libft/Makefile" a w) = Ret None
   /\ files (snd (update_makefile "libft/Makefile" a w)) = files w
   /\ log (snd (update_makefile "libft/Makefile" a w))
      = log w ++ [(DEBUG, updating_message "libft/Makefile");
                  (ERROR, no_cflags_message "libft/Makefile")])
  /\ exists m w',
      create_makefile a false w = (Ret m, w')
      /\ (forall p, p <> "Makefile"%string -> files w' !! p = files w !! p)
      /\ (libft a = true ->
          In (ERROR, no_cflags_message "libft/Makefile") (log w'))
      /\ (minilibx a = true ->
          In (ERROR, no_cflags_message "minilibx/Makefile.mk") (log w')).
Proof.
  intros a w.
  destruct missing_flags_line_is_not_fatal as [Hpatch Hcreate].
  split.
  - apply (Hpatch "libft/Makefile"%string a w
             (line "NAME = libft.a" ++ line "FLAGS = -Wall -Wextra -Werror"
              ++ line "all: $(NAME)")).
    + vm_compute. reflexivity.
    + vm_compute. reflexivity.
  - apply (Hcreate a false w).
    + vm_compute. eauto.
    + intros _. eexists. split; vm_compute; reflexivity.
    + intros H. vm_compute in H. discriminate H.
Defined.

(** ** The pattern, without backtracking *)

Lemma run_after (p : ascii -> bool) (s : text) : run p s ++ after p s = s.
Proof.
  induction s as [|c s IH]; [reflexivity|]. simpl.
  destruct (p c); [simpl; now rewrite IH|reflexivity].
Qed.

Lemma captured_run (pre r : text) : captured pre (rev r ++ pre) = r.
Proof.
  unfold captured. rewrite length_app, length_rev.
  replace (length r + length pre - length pre) with (length (rev r))
    by (rewrite length_rev; lia).
  rewrite firstn_app, Nat.sub_diag, firstn_all, firstn_O, app_nil_r.
  apply rev_involutive.
Qed.

(** A greedy star whose continuation succeeds after the longest run
    stops there. *)
Lemma star_longest {R : Type} (p : ascii -> bool) (pre s : text)
    (k : text -> text -> option R) (x : R) :
  k (rev (run p s) ++ pre) (after p s) = Some x ->
  star p pre s k = Some x.
Proof.
  revert pre. induction s as [|c s IH]; intros pre Hk; simpl in *.
  - exact Hk.
  - destruct (p c); [|exact Hk].
    simpl in Hk. rewrite <- app_assoc in Hk. simpl in Hk.
    rewrite (IH (c :: pre) Hk). reflexivity.
Qed.

(** A greedy star whose continuation fails before every character of
    the class gives nothing back with success. *)
Lemma star_no_backtrack {R : Type} (p : ascii -> bool) (pre s : text)
    (k : text -> text -> option R) :
  (forall pre' c s', p c = true -> k pre' (c :: s') = None) ->
  star p pre s k = k (rev (run p s) ++ pre) (after p s).
Proof.
  intros Hfail. revert pre. induction s as [|c s IH]; intros pre; simpl.
  - reflexivity.
  - destruct (p c) eqn:Hc; [|reflexivity].
    rewrite IH. simpl. rewrite <- app_assoc. simpl.
    destruct (k (rev (run p s) ++ c :: pre) (after p s)); [reflexivity|].
    apply Hfail, Hc.
Qed.

Lemma at_eol_after_notnl (s : text) : at_eol (after notnl s) = true.
Proof.
  induction s as [|c s IH]; [reflexivity|]. simpl. unfold notnl at 1.
  destruct (Ascii.eqb c LF) eqn:Hc; simpl; [|exact IH].
  exact Hc.
Qed.

Lemma rmatch_lit {R : Type} (l pre s : text) (g : caps)
    (k : text -> text -> caps -> option R) :
  rmatch (lit l) pre s g k
  = if startswith l s then k (rev l ++ pre) (skipn (length l) s) g else None.
Proof.
  revert pre s. induction l as [|c l IH]; intros pre s; [reflexivity|].
  cbn [lit rmatch startswith]. destruct s as [|x s]; [reflexivity|].
  rewrite Ascii.eqb_sym.
  destruct (Ascii.eqb_spec c x) as [->|Hne]; [|reflexivity].
  rewrite IH. cbn [andb length skipn rev]. rewrite <- app_assoc. reflexivity.
Qed.

Lemma isspace_not (c d : ascii) :
  isspace c = true -> isspace d = false -> Ascii.eqb c d = false.
Proof.
  intros Hc Hd. destruct (Ascii.eqb_spec c d) as [->|]; [congruence|reflexivity].
Qed.

(** After the equals sign nothing can fail: the white space and the
    rest of the line are taken whole. *)
Lemma value_match (pre0 pre1 s : text) (op : text) :
  star isspace pre1 s
    (fun pre' s' =>
       star notnl pre' s'
         (fun pre'' s'' =>
            if at_eol s''
            then Some (length pre'' - length pre0,
                       [(2, captured pre' pre''); (1, op)])
            else None))
  = Some (length (run notnl (after isspace s)) + length (run isspace s)
          + length pre1 - length pre0,
          [(2, run notnl (after isspace s)); (1, op)]).
Proof.
  apply star_longest. apply star_longest.
  rewrite at_eol_after_notnl, captured_run.
  rewrite !length_app, !length_rev. do 2 f_equal. lia.
Qed.

Lemma match_at_flags_line (pre s : text) :
  match_at cflags_re pre s
  = if at_bol pre then
      match flags_line s with
      | Some (len, op, value) => Some (len, [(2, value); (1, op)])
      | None => None
      end
    else None.
Proof.
  unfold match_at, cflags_re. cbn [rmatch].
  destruct (at_bol pre); [|reflexivity].
  rewrite rmatch_lit. unfold flags_line.
  destruct (startswith (str "CFLAGS") s); [|reflexivity].
  set (s1 := skipn (length (str "CFLAGS")) s).
  change (skipn 6 s) with s1.
  rewrite star_no_backtrack.
  2:{ intros pre' c s' Hc. cbn [rmatch].
      rewrite !(isspace_not c _ Hc) by reflexivity. reflexivity. }
  unfold flags_operator.
  destruct (after isspace s1) as [|x s2]; [reflexivity|].
  set (pre1 := rev (run isspace s1) ++ rev (str "CFLAGS") ++ pre).
  assert (Hlen : length pre1 = length (run isspace s1) + 6 + length pre).
  { unfold pre1. rewrite !length_app, !length_rev.
    change (length (str "CFLAGS")) with 6. lia. }
  destruct (Ascii.eqb_spec x ":") as [->|Hc].
  { change (captured pre1 (":"%char :: pre1)) with (captured pre1 (rev [":"%char] ++ pre1)).
    rewrite captured_run.
    destruct s2 as [|e s3]; [reflexivity|].
    destruct (Ascii.eqb e "="); [|reflexivity].
    rewrite value_match. cbn [length]. rewrite Hlen. do 2 f_equal. lia. }
  destruct (Ascii.eqb_spec x "?") as [->|Hq].
  { change (captured pre1 ("?"%char :: pre1)) with (captured pre1 (rev ["?"%char] ++ pre1)).
    rewrite captured_run.
    destruct s2 as [|e s3]; [reflexivity|].
    destruct (Ascii.eqb e "="); [|reflexivity].
    rewrite value_match. cbn [length]. rewrite Hlen. do 2 f_equal. lia. }
  destruct (Ascii.eqb x "="); [|reflexivity].
  change (captured pre1 pre1) with (captured pre1 (rev [] ++ pre1)).
  rewrite captured_run.
  rewrite value_match. cbn [length]. rewrite Hlen. do 2 f_equal. lia.
Qed.

(** ** The shape of a flags line *)

Lemma startswith_skipn (p s : text) :
  startswith p s = true -> s = p ++ skipn (length p) s.
Proof.
  revert s. induction p as [|c p IH]; intros s H; [reflexivity|].
  destruct s as [|x s]; [discriminate|].
  cbn [startswith] in H. apply andb_prop in H as [Hc Hp].
  apply Ascii.eqb_eq in Hc. subst x.
  cbn [length skipn app]. f_equal. apply IH, Hp.
Qed.

Lemma run_all (p : ascii -> bool) (s : text) : forallb p (run p s) = true.
Proof.
  induction s as [|c s IH]; [reflexivity|]. simpl.
  destruct (p c) eqn:Hc; [simpl; now rewrite Hc|reflexivity].
Qed.

Lemma after_stops (p : ascii -> bool) (s : text) :
  match after p s with
  | c :: _ => p c = false
  | [] => True
  end.
Proof.
  induction s as [|c s IH]; [exact I|]. simpl.
  destruct (p c) eqn:Hc; [exact IH|exact Hc].
Qed.

Lemma flags_operator_shape (s op s2 : text) :
  flags_operator s = Some (op, s2) ->
  s = op ++ "="%char :: s2
  /\ (op = [] \/ op = [":"%char] \/ op = ["?"%char]).
Proof.
  unfold flags_operator. destruct s as [|c s]; [discriminate|].
  destruct (Ascii.eqb_spec c ":") as [->|Hc].
  { destruct s as [|e s]; [discriminate|].
    destruct (Ascii.eqb_spec e "=") as [->|]; [|discriminate].
    intros [= <- <-]. split; [reflexivity|]. right. left. reflexivity. }
  destruct (Ascii.eqb_spec c "?") as [->|Hq].
  { destruct s as [|e s]; [discriminate|].
    destruct (Ascii.eqb_spec e "=") as [->|]; [|discriminate].
    intros [= <- <-]. split; [reflexivity|]. right. right. reflexivity. }
  destruct (Ascii.eqb_spec c "=") as [->|]; [|discriminate].
  intros [= <- <-]. split; [reflexivity|]. left. reflexivity.
Qed.

(** A match is the word [CFLAGS], white space, the operator, the equals
    sign, white space and the value, which runs to the end of its line
    and does not start with white space. *)
Lemma flags_line_shape (s : text) (len : nat) (op value : text) :
  flags_line s = Some (len, op, value) ->
  exists ws1 ws2 rest,
    s = str "CFLAGS" ++ ws1 ++ op ++ "="%char :: ws2 ++ value ++ rest
    /\ len = length (str "CFLAGS" ++ ws1 ++ op ++ "="%char :: ws2 ++ value)
    /\ forallb isspace ws1 = true /\ forallb isspace ws2 = true
    /\ (op = [] \/ op = [":"%char] \/ op = ["?"%char])
    /\ forallb notnl value = true
    /\ lstrip value = value
    /\ at_eol rest = true.
Proof.
  unfold flags_line.
  destruct (startswith (str "CFLAGS") s) eqn:Hs; [|discriminate].
  apply startswith_skipn in Hs. change (length (str "CFLAGS")) with 6 in Hs.
  destruct (flags_operator (after isspace (skipn 6 s))) as [[op' s2]|] eqn:Hop;
    [|discriminate].
  intros [= <- <- <-].
  apply flags_operator_shape in Hop as [Hop Hcases].
  exists (run isspace (skipn 6 s)), (run isspace s2),
    (after notnl (after isspace s2)).
  split.
  { rewrite (run_after notnl), (run_after isspace s2), <- Hop.
    rewrite (run_after isspace). exact Hs. }
  split.
  { rewrite !length_app. cbn [length]. rewrite !length_app.
    change (length (str "CFLAGS")) with 6. lia. }
  repeat split; try apply run_all; try exact Hcases.
  - pose proof (after_stops isspace s2) as Hstop.
    destruct (after isspace s2) as [|c s3]; [reflexivity|].
    cbn [run]. destruct (notnl c); [|reflexivity].
    cbn [lstrip]. rewrite Hstop. reflexivity.
  - apply at_eol_after_notnl.
Qed.

Lemma match_at_cflags_length (pre s : text) (len : nat) (g : caps) :
  match_at cflags_re pre s = Some (len, g) -> 0 < len <= length s.
Proof.
  rewrite match_at_flags_line. destruct (at_bol pre); [|discriminate].
  destruct (flags_line s) as [[[len' op] value]|] eqn:Hf; [|discriminate].
  intros [= <- <-].
  apply flags_line_shape in Hf as (ws1 & ws2 & rest & -> & -> & _).
  rewrite !length_app. cbn [length]. rewrite !length_app.
  change (length (str "CFLAGS")) with 6. lia.
Qed.

(** ** Scanning for matches

    For a pattern whose matches are never empty and stay inside the
    subject, [re.findall] and [re.sub] see the same first match: the
    text before it is copied, the match is replaced, and the scan goes
    on right after it. *)

Section Scan.
Variable r : regex.
Hypothesis match_length :
  forall pre s len g, match_at r pre s = Some (len, g) -> 0 < len <= length s.

Lemma matches_from_skip (n : nat) (s pre : text) :
  n <= length s ->
  matches_from r pre s n = matches_from r (rev (firstn n s) ++ pre) (skipn n s) 0.
Proof.
  revert s pre. induction n as [|n IH]; intros s pre Hn; [reflexivity|].
  destruct s as [|c s]; [cbn [length] in Hn; lia|].
  cbn [matches_from firstn skipn rev]. rewrite <- app_assoc.
  apply IH. cbn [length] in Hn. lia.
Qed.

Lemma sub_from_skip (tpl : list titem) (n : nat) (s pre : text) :
  n <= length s ->
  sub_from r tpl pre s n = sub_from r tpl (rev (firstn n s) ++ pre) (skipn n s) 0.
Proof.
  revert s pre. induction n as [|n IH]; intros s pre Hn; [reflexivity|].
  destruct s as [|c s]; [cbn [length] in Hn; lia|].
  cbn [sub_from firstn skipn rev]. rewrite <- app_assoc.
  apply IH. cbn [length] in Hn. lia.
Qed.

Lemma sub_from_no_match (tpl : list titem) (s pre : text) :
  matches_from r pre s 0 = [] -> sub_from r tpl pre s 0 = s.
Proof.
  revert pre. induction s as [|c s IH]; intros pre H.
  - cbn [matches_from sub_from] in *.
    destruct (match_at r pre []) as [[len g]|]; [discriminate|reflexivity].
  - cbn [matches_from sub_from] in *.
    destruct (match_at r pre (c :: s)) as [[[|n] g]|]; try discriminate.
    f_equal. apply IH, H.
Qed.

Lemma first_match (s pre m : text) (g : caps) (ms : list (text * caps)) :
  matches_from r pre s 0 = (m, g) :: ms ->
  exists before after,
    s = before ++ m ++ after
    /\ no_match_before r pre before (m ++ after)
    /\ match_at r (rev before ++ pre) (m ++ after) = Some (length m, g)
    /\ ms = matches_from r (rev (before ++ m) ++ pre) after 0
    /\ forall tpl,
        sub_from r tpl pre s 0
        = before ++ expand_template tpl m g
          ++ sub_from r tpl (rev (before ++ m) ++ pre) after 0.
Proof.
  revert pre m g ms. induction s as [|c s IH]; intros pre m g ms H.
  - cbn [matches_from] in H.
    destruct (match_at r pre []) as [[len g']|] eqn:Hm; [|discriminate].
    apply match_length in Hm. cbn [length] in Hm. lia.
  - cbn [matches_from] in H.
    destruct (match_at r pre (c :: s)) as [[len g']|] eqn:Hm.
    + pose proof (match_length _ _ _ _ Hm) as Hlen.
      destruct len as [|n]; [lia|].
      assert (Hn : n <= length s) by (cbn [length] in Hlen; lia).
      injection H as Hm1 Hg Hms. subst g ms.
      change (c :: firstn n s) with (firstn (S n) (c :: s)) in Hm1. subst m.
      exists [], (skipn (S n) (c :: s)).
      cbn [rev app].
      split; [symmetry; apply firstn_skipn|].
      split; [intros [|? ?] ? ? ?; discriminate|].
      split.
      { rewrite firstn_skipn, length_firstn, Nat.min_l by exact (proj2 Hlen).
        exact Hm. }
      cbn [firstn skipn rev]. rewrite <- app_assoc. cbn [app].
      split; [apply matches_from_skip, Hn|].
      intros tpl. cbn [sub_from]. rewrite Hm. cbn [firstn]. f_equal.
      apply sub_from_skip, Hn.
    + destruct (IH (c :: pre) m g ms H)
        as (before & after & Hs & Hno & Hma & Hms & Hsub).
      exists (c :: before), after.
      cbn [app rev]. rewrite <- !app_assoc. cbn [app].
      split; [rewrite Hs; reflexivity|].
      split.
      { intros [|c1 x1] c' x2 Hx; cbn [app] in Hx; injection Hx as -> ->.
        - cbn [rev app]. rewrite <- Hs. exact Hm.
        - cbn [rev]. rewrite <- app_assoc. cbn [app].
          apply (Hno x1 c' x2). reflexivity. }
      split; [exact Hma|].
      split; [exact Hms|].
      intros tpl. cbn [sub_from]. rewrite Hm. f_equal. apply Hsub.
Qed.

(** The other way round: a match after a text in which none starts is
    the first that the scan finds. *)
Lemma scan_to_match (x y pre : text) (n : nat) (g : caps) :
  no_match_before r pre x y ->
  match_at r (rev x ++ pre) y = Some (S n, g) ->
  matches_from r pre (x ++ y) 0
  = (firstn (S n) y, g)
    :: matches_from r (rev (firstn (S n) y) ++ rev x ++ pre) (skipn (S n) y) 0
  /\ forall tpl,
      sub_from r tpl pre (x ++ y) 0
      = x ++ expand_template tpl (firstn (S n) y) g
        ++ sub_from r tpl (rev (firstn (S n) y) ++ rev x ++ pre) (skipn (S n) y) 0.
Proof.
  revert pre. induction x as [|c x IH]; intros pre Hno Hm.
  - cbn [rev app] in *. pose proof (match_length _ _ _ _ Hm) as Hlen.
    destruct y as [|d y]; [cbn [length] in Hlen; lia|].
    assert (Hn : n <= length y) by (cbn [length] in Hlen; lia).
    cbn [matches_from sub_from]. rewrite Hm.
    cbn [firstn skipn rev]. rewrite <- !app_assoc. cbn [app].
    split; [f_equal; apply matches_from_skip, Hn|].
    intros tpl. f_equal. apply sub_from_skip, Hn.
  - assert (Hc : match_at r pre (c :: x ++ y) = None).
    { apply (Hno [] c x). reflexivity. }
    cbn [rev] in Hm. rewrite <- app_assoc in Hm. cbn [app] in Hm.
    destruct (IH (c :: pre)) as [IH1 IH2].
    { intros x1 c' x2 Hx. specialize (Hno (c :: x1) c' x2).
      cbn [rev app] in Hno. rewrite <- app_assoc in Hno. cbn [app] in Hno.
      apply Hno. rewrite Hx. reflexivity. }
    { exact Hm. }
    cbn [app matches_from sub_from rev]. rewrite Hc.
    rewrite <- !app_assoc. cbn [app].
    split; [exact IH1|].
    intros tpl. f_equal. apply IH2.
Qed.
End Scan.

(** ** Replacements without a backslash *)

Lemma lacks_app (x : ascii) (a b : text) :
  lacks x (a ++ b) = lacks x a && lacks x b.
Proof. apply forallb_app. Qed.

Lemma lacks_rev (x : ascii) (s : text) : lacks x (rev s) = lacks x s.
Proof.
  unfold lacks. induction s as [|c s IH]; [reflexivity|].
  cbn [rev forallb]. rewrite forallb_app, IH. cbn [forallb].
  rewrite andb_true_r. apply andb_comm.
Qed.

Lemma lacks_lstrip (x : ascii) (s : text) :
  lacks x s = true -> lacks x (lstrip s) = true.
Proof.
  induction s as [|c s IH]; intros H; [reflexivity|].
  cbn [lstrip]. destruct (isspace c); [|exact H].
  apply IH. cbn [lacks forallb] in H. apply andb_prop in H. apply H.
Qed.

Lemma lacks_strip (x : ascii) (s : text) :
  lacks x s = true -> lacks x (strip s) = true.
Proof.
  intros H. unfold strip, rstrip. rewrite lacks_rev.
  apply lacks_lstrip. rewrite lacks_rev. apply lacks_lstrip, H.
Qed.

Lemma lacks_replace_from (x : ascii) (old s : text) (skip : nat) :
  lacks x s = true -> lacks x (replace_from old [] s skip) = true.
Proof.
  revert skip. induction s as [|c s IH]; intros skip H; [reflexivity|].
  cbn [lacks forallb] in H. apply andb_prop in H as [Hc Hs].
  cbn [replace_from]. destruct skip as [|n]; [|apply IH, Hs].
  destruct (startswith old (c :: s)).
  - cbn [app]. apply IH, Hs.
  - cbn [lacks forallb]. rewrite Hc. apply IH, Hs.
Qed.

(** The new value of the flags holds no character that is neither in
    the old value nor in [ -g]. *)
Lemma lacks_new_cflags (x : ascii) (a : args) (value : text) :
  lacks x (str " -g") = true ->
  lacks x value = true -> lacks x (new_cflags a value) = true.
Proof.
  intros Hx H. unfold new_cflags.
  destruct (wants_debug a && negb (contains (str "-g") (strip value))).
  - apply lacks_strip. rewrite lacks_app, lacks_strip by exact H. exact Hx.
  - destruct (negb (wants_debug a) && contains (str "-g") (strip value)).
    + apply lacks_strip. apply lacks_replace_from, lacks_strip, H.
    + apply lacks_strip, H.
Qed.

Lemma plain_app (a b : text) : plain (a ++ b) = plain a && plain b.
Proof. apply lacks_app. Qed.

Lemma plain_new_cflags (a : args) (value : text) :
  plain value = true -> plain (new_cflags a value) = true.
Proof. apply lacks_new_cflags. reflexivity. Qed.

Lemma parse_template_plain (n : nat) (t : text) :
  plain t = true -> parse_template n t = Some (map TLit t).
Proof.
  unfold parse_template. induction t as [|c t IH]; intros H; [reflexivity|].
  unfold plain in *. cbn [lacks forallb] in H. apply andb_prop in H as [Hc Ht].
  apply negb_true_iff in Hc.
  cbn [parse_template_from map]. rewrite Hc, (IH Ht). reflexivity.
Qed.

Lemma expand_template_plain (t whole : text) (g : caps) :
  expand_template (map TLit t) whole g = t.
Proof.
  unfold expand_template. induction t as [|c t IH]; [reflexivity|].
  cbn [map flat_map expand_item app]. now rewrite IH.
Qed.

Lemma sub_plain (r : regex) (repl s : text) :
  plain repl = true ->
  sub r repl s = Some (sub_from r (map TLit repl) [] s 0).
Proof.
  intros H. unfold sub. rewrite (parse_template_plain _ _ H). reflexivity.
Qed.

(** ** The patch at the first flags line *)

(** The patch in general, for a value without a backslash.  The text
    before the first flags line is kept; the flags line is written back
    as [CFLAGS], the operator it had, and the new value; when no other
    flags line follows, the text after it is kept as well.  The file is
    written, and a rewrite reported, exactly when the text changed. *)
Theorem update_makefile_first_flags_line (path : string) (a : args) (w : world)
    (t op value : text) (others : list (text * text)) :
  files w !! path = Some t ->
  findall cflags_re (universal_newlines t) = (op, value) :: others ->
  plain value = true ->
  exists before matched after after',
    universal_newlines t = before ++ matched ++ after
    /\ at_bol (rev before) = true
    /\ flags_line (matched ++ after) = Some (length matched, op, value)
    /\ (others = [] -> after' = after)
    /\ let new := before ++ replacement op (new_cflags a value) ++ after' in
       let run := update_makefile path a w in
       let changed := negb (text_eqb new (universal_newlines t)) in
       fst run = Ret (Some changed)
       /\ files (snd run) !! path = Some (if changed then new else t).
Proof.
  intros Hf Hall Hplain.
  unfold findall in Hall.
  destruct (matches_from cflags_re [] (universal_newlines t) 0)
    as [|[m g] ms] eqn:Hms; [discriminate|].
  cbn [map fst snd] in Hall. injection Hall as Hop Hval Hothers.
  destruct (first_match cflags_re match_at_cflags_length _ _ _ _ _ Hms)
    as (before & after & Hs & _ & Hma & Hrest & Hsub).
  rewrite app_nil_r in Hma, Hrest, Hsub.
  rewrite match_at_flags_line in Hma.
  destruct (at_bol (rev before)) eqn:Hbol; [|discriminate].
  destruct (flags_line (m ++ after)) as [[[len op'] value']|] eqn:Hfl;
    [|discriminate].
  injection Hma as Hlen Hg. subst len g.
  cbn in Hop, Hval. subst op' value'.
  assert (Hrepl : plain (replacement op (new_cflags a value)) = true).
  { unfold replacement. rewrite !plain_app, plain_new_cflags by exact Hplain.
    apply flags_line_shape in Hfl as (_ & _ & _ & _ & _ & _ & _ & Hopc & _).
    destruct Hopc as [->|[->| ->]]; reflexivity. }
  exists before, m, after,
    (sub_from cflags_re (map TLit (replacement op (new_cflags a value)))
       (rev (before ++ m)) after 0).
  split; [exact Hs|]. split; [exact Hbol|]. split; [exact Hfl|].
  split.
  { intros ->. destruct ms; [|discriminate].
    apply (sub_from_no_match cflags_re). symmetry. exact Hrest. }
  cbn zeta. rewrite update_makefile_unfold. cbn zeta. rewrite Hf.
  unfold patch_text, findall. rewrite Hms. cbn [map fst snd group Nat.eqb].
  rewrite (sub_plain _ _ _ Hrepl), Hsub, expand_template_plain.
  destruct (text_eqb _ (universal_newlines t)) eqn:Heq; cbn [negb fst snd].
  - split; [reflexivity|]. cbn [files add_log]. exact Hf.
  - split; [reflexivity|]. cbn [files add_log set_files].
    apply lookup_insert_eq.
Qed.

(** ** Compiling twice without optional libraries *)

Lemma then_ran_trans (w0 w1 w2 : world) (l1 l2 : list text) :
  then_ran w0 w1 l1 -> then_ran w1 w2 l2 -> then_ran w0 w2 (l1 ++ l2).
Proof.
  intros (H1 & H2 & H3 & H4 & H5) (K1 & K2 & K3 & K4 & K5).
  repeat split; try congruence. rewrite K5, H5, app_assoc. reflexivity.
Qed.

Lemma run_command_unchecked (command : text) (w : world) :
  exists w',
    run_command command false w = (Ret (exit_ok w command), w')
    /\ then_ran w w' [command].
Proof.
  unfold run_command, bind, logging, ret. cbn.
  eexists. split; [reflexivity|]. repeat split.
Qed.

Lemma makedirs_all_keeps (l : list text) (w : world) :
  exists w', makedirs_all l w = (Ret tt, w') /\ then_ran w w' [].
Proof.
  revert w. induction l as [|file l IH]; intros w.
  - exists w. split; [reflexivity|]. repeat split. symmetry. apply app_nil_r.
  - cbn [makedirs_all]. unfold bind.
    destruct (endswith (str ".c") file); unfold ret; cbv beta iota.
    + destruct (IH (add_dir (dirname (replace (str "src") (str "obj") file)) w))
        as (w' & -> & H). exists w'. split; [reflexivity|exact H].
    + destruct (IH w) as (w' & -> & H). exists w'. split; [reflexivity|exact H].
Qed.

Lemma run_norminette_post (w : world) :
  exists ok w',
    run_norminette w = (Ret ok, w')
    /\ then_ran w w' [str "norminette src includes"].
Proof.
  unfold run_norminette. unfold bind at 1. unfold logging at 1.
  unfold bind at 1.
  destruct (run_command_unchecked (str "norminette src includes")
              (add_log DEBUG (str "Running norminette") w)) as (w' & -> & H).
  unfold bind, logging, ret. eexists _, _. split; [reflexivity|exact H].
Qed.

Lemma copy_source_structure_post (w : world) :
  is_Some (src_dir w) ->
  exists w', copy_source_structure w = (Ret tt, w') /\ then_ran w w' [].
Proof.
  intros [entries Hsrc].
  unfold copy_source_structure. unfold bind at 1. unfold logging at 1.
  unfold bind at 1. unfold get_all_files_src. cbn [src_dir add_log].
  rewrite Hsrc. unfold bind at 1.
  destruct (makedirs_all_keeps
              (flat_map (get_all_files_entry (str "src")) entries)
              (add_log DEBUG (str "Copying source structure to obj folder") w))
    as (w' & -> & H).
  unfold logging. eexists. split; [reflexivity|exact H].
Qed.








Lemma update_makefile_first_flags_line_witness :
  let path := "minilibx/Makefile.mk"%string in
  let a := compile_args false true true in
  let t := line "INC = /usr/include"
           ++ str "CFLAGS" ++ TAB :: line "?= -O3 -I$(INC)"
           ++ line "all: $(NAME)" in
  exists before matched after after',
    universal_newlines t = before ++ matched ++ after
    /\ at_bol (rev before) = true
    /\ flags_line (matched ++ after)
       = Some (length matched, str "?", str "-O3 -I$(INC)")
    /\ (@nil (text * text) = [] -> after' = after)
    /\ let new := before ++ str "CFLAGS ?= -O3 -I$(INC) -g" ++ after' in
       let run := update_makefile path a (vendor_world path t) in
       let changed := negb (text_eqb new (universal_newlines t)) in
       fst run = Ret (Some changed)
       /\ files (snd run) !! path = Some (if changed then new else t).
Proof.
  intros path a t.
  apply (update_makefile_first_flags_line path a (vendor_world path t) t
           (str "?") (str "-O3 -I$(INC)") []);
    vm_compute; reflexivity.
Defined.

(** ** A flags line as the patch writes it *)

Lemma lstrip_snoc (a : text) (c : ascii) :
  lstrip (a ++ [c])
  = match lstrip a with
    | [] => if isspace c then [] else [c]
    | l => l ++ [c]
    end.
Proof.
  induction a as [|x a IH]; [reflexivity|].
  cbn [app lstrip]. destruct (isspace x); [exact IH|reflexivity].
Qed.

(** Stripping on the right keeps a first character that is not white
    space. *)
Lemma rstrip_keeps_head (c : ascii) (s : text) :
  isspace c = false -> exists y, rstrip (c :: s) = c :: y.
Proof.
  intros Hc. unfold rstrip. cbn [rev]. rewrite lstrip_snoc, Hc.
  destruct (lstrip (rev s)) as [|x l].
  - exists []. reflexivity.
  - exists (rev (x :: l)). rewrite rev_app_distr. reflexivity.
Qed.

Lemma lstrip_head (s : text) :
  match lstrip s with
  | c :: _ => isspace c = false
  | [] => True
  end.
Proof.
  induction s as [|c s IH]; [exact I|].
  cbn [lstrip]. destruct (isspace c) eqn:Hc; [exact IH|exact Hc].
Qed.

Lemma lstrip_strip (s : text) : lstrip (strip s) = strip s.
Proof.
  unfold strip. pose proof (lstrip_head s) as H.
  destruct (lstrip s) as [|c y]; [reflexivity|].
  destruct (rstrip_keeps_head c y H) as [z ->].
  cbn [lstrip]. rewrite H. reflexivity.
Qed.

Lemma lstrip_new_cflags (a : args) (value : text) :
  lstrip (new_cflags a value) = new_cflags a value.
Proof.
  unfold new_cflags.
  destruct (wants_debug a && negb (contains (str "-g") (strip value)));
    [apply lstrip_strip|].
  destruct (negb (wants_debug a) && contains (str "-g") (strip value));
    apply lstrip_strip.
Qed.

Lemma run_notnl_app (v rest : text) :
  lacks LF v = true -> at_eol rest = true ->
  run notnl (v ++ rest) = v /\ after notnl (v ++ rest) = rest.
Proof.
  intros Hv Hr. induction v as [|c v IH].
  - destruct rest as [|d rest]; [split; reflexivity|].
    cbn [at_eol] in Hr. cbn [app run after]. unfold notnl. rewrite Hr.
    split; reflexivity.
  - cbn [lacks forallb] in Hv. apply andb_prop in Hv as [Hc Hv].
    destruct (IH Hv) as [IH1 IH2].
    cbn [app run after]. unfold notnl at 1 3. rewrite Hc, IH1, IH2.
    split; reflexivity.
Qed.

Lemma flags_operator_plain (s : text) :
  flags_operator ("="%char :: s) = Some ([], s).
Proof. reflexivity. Qed.

Lemma flags_operator_colon (s : text) :
  flags_operator (":"%char :: "="%char :: s) = Some ([":"%char], s).
Proof. reflexivity. Qed.

Lemma flags_operator_question (s : text) :
  flags_operator ("?"%char :: "="%char :: s) = Some (["?"%char], s).
Proof. reflexivity. Qed.

(** The line the patch writes is a flags line with the operator and
    the value it was made from, provided the value is not empty. *)
Lemma flags_line_canonical (op v rest : text) :
  op = [] \/ op = [":"%char] \/ op = ["?"%char] ->
  v <> [] -> lstrip v = v -> lacks LF v = true -> at_eol rest = true ->
  flags_line (replacement op v ++ rest)
  = Some (length (replacement op v), op, v).
Proof.
  intros Hop Hne Hl Hv Hr.
  destruct v as [|c v']; [contradiction|].
  assert (Hc : isspace c = false).
  { cbn [lstrip] in Hl. destruct (isspace c) eqn:E; [|reflexivity].
    exfalso. pose proof (f_equal (@length ascii) Hl) as Hlen.
    cbn [length] in Hlen.
    assert (Hle : forall s, length (lstrip s) <= length s).
    { induction s as [|x s IH]; [reflexivity|]. cbn [lstrip].
      destruct (isspace x); cbn [length]; lia. }
    specialize (Hle v'). rewrite Hlen in Hle. lia. }
  destruct (run_notnl_app (c :: v') rest Hv Hr) as [Hrun _].
  assert (Hsp : forall s, run isspace (" "%char :: c :: s) = [" "%char]
                          /\ after isspace (" "%char :: c :: s) = c :: s).
  { intros s. cbn [run after]. change (isspace " ") with true. cbv iota.
    rewrite Hc. split; reflexivity. }
  unfold flags_line, replacement.
  destruct Hop as [->|[->| ->]];
    cbn [str list_ascii_of_string app startswith skipn];
    rewrite ?Ascii.eqb_refl; cbn [andb];
    cbn [after run]; change (isspace " ") with true; cbv iota.
  - change (isspace "=") with false. cbv iota.
    rewrite flags_operator_plain.
    destruct (Hsp (v' ++ rest)) as [-> ->].
    change (c :: v' ++ rest) with ((c :: v') ++ rest). rewrite Hrun.
    cbn [length]. do 2 f_equal.
  - change (isspace ":") with false. cbv iota.
    rewrite flags_operator_colon.
    destruct (Hsp (v' ++ rest)) as [-> ->].
    change (c :: v' ++ rest) with ((c :: v') ++ rest). rewrite Hrun.
    cbn [length]. do 2 f_equal.
  - change (isspace "?") with false. cbv iota.
    rewrite flags_operator_question.
    destruct (Hsp (v' ++ rest)) as [-> ->].
    change (c :: v' ++ rest) with ((c :: v') ++ rest). rewrite Hrun.
    cbn [length]. do 2 f_equal.
Qed.

(** ** What a failed attempt has read *)

Lemma startswith_app_long (p x z : text) :
  length p <= length x -> startswith p (x ++ z) = startswith p x.
Proof.
  revert x. induction p as [|c p IH]; intros x H; [reflexivity|].
  destruct x as [|d x]; [cbn [length] in H; lia|].
  cbn [app startswith]. rewrite IH by (cbn [length] in H; lia). reflexivity.
Qed.

Lemma skipn_app_long (n : nat) (x z : text) :
  n <= length x -> skipn n (x ++ z) = skipn n x ++ z.
Proof.
  intros H. rewrite skipn_app. replace (n - length x) with 0 by lia.
  reflexivity.
Qed.

(** A text that ends before its sixth character does not start a flags
    line, whatever follows it, when the word [CFLAGS] follows it. *)
Lemma startswith_before_flags (x y : text) :
  x <> [] ->
  startswith (str "CFLAGS") (x ++ str "CFLAGS" ++ y)
  = startswith (str "CFLAGS") x.
Proof.
  intros Hx.
  destruct x as [|c1 [|c2 [|c3 [|c4 [|c5 [|c6 x]]]]]]; [contradiction| | | | | |].
  6:{ apply startswith_app_long. cbn [length str list_ascii_of_string]. lia. }
  all: cbn [app str list_ascii_of_string startswith].
  - destruct (Ascii.eqb "C" c1); reflexivity.
  - destruct (Ascii.eqb "C" c1), (Ascii.eqb "F" c2); reflexivity.
  - destruct (Ascii.eqb "C" c1), (Ascii.eqb "F" c2), (Ascii.eqb "L" c3);
      reflexivity.
  - destruct (Ascii.eqb "C" c1), (Ascii.eqb "F" c2), (Ascii.eqb "L" c3),
      (Ascii.eqb "A" c4); reflexivity.
  - destruct (Ascii.eqb "C" c1), (Ascii.eqb "F" c2), (Ascii.eqb "L" c3),
      (Ascii.eqb "A" c4), (Ascii.eqb "G" c5); reflexivity.
Qed.

Lemma after_app (p : ascii -> bool) (a b : text) :
  after p (a ++ b) = if forallb p a then after p b else after p a ++ b.
Proof.
  induction a as [|c a IH]; [reflexivity|].
  cbn [app after forallb]. destruct (p c); [exact IH|reflexivity].
Qed.

Lemma after_nonempty (p : ascii -> bool) (a : text) :
  forallb p a = false -> after p a <> [].
Proof.
  induction a as [|c a IH]; [discriminate|].
  cbn [forallb after]. destruct (p c); [exact IH|discriminate].
Qed.

(** The operator is read from one or two characters. *)
Lemma flags_operator_before_flags (x y1 y2 : text) :
  x <> [] ->
  flags_operator (x ++ "C"%char :: y1) = None ->
  flags_operator (x ++ "C"%char :: y2) = None.
Proof.
  intros Hx. destruct x as [|c [|e x]]; [contradiction| |].
  - cbn [app]. unfold flags_operator.
    destruct (Ascii.eqb c ":"); [intros _; reflexivity|].
    destruct (Ascii.eqb c "?"); [intros _; reflexivity|].
    destruct (Ascii.eqb c "="); [intros H; discriminate H|intros _; reflexivity].
  - cbn [app]. unfold flags_operator.
    destruct (Ascii.eqb c ":");
      [destruct (Ascii.eqb e "=");
         [intros H; discriminate H|intros _; reflexivity]|].
    destruct (Ascii.eqb c "?");
      [destruct (Ascii.eqb e "=");
         [intros H; discriminate H|intros _; reflexivity]|].
    destruct (Ascii.eqb c "="); [intros H; discriminate H|intros _; reflexivity].
Qed.

(** An attempt that fails before a flags line fails before any other
    flags line. *)
Lemma flags_line_before_flags (x y1 y2 : text) :
  x <> [] ->
  flags_line (x ++ str "CFLAGS" ++ y1) = None ->
  flags_line (x ++ str "CFLAGS" ++ y2) = None.
Proof.
  intros Hx. unfold flags_line.
  rewrite !(startswith_before_flags x _ Hx).
  destruct (startswith (str "CFLAGS") x) eqn:Hs; [|reflexivity].
  assert (Hlen : 6 <= length x).
  { apply startswith_skipn in Hs. rewrite Hs, length_app.
    change (length (str "CFLAGS")) with 6. lia. }
  rewrite !(skipn_app_long 6 x) by exact Hlen.
  rewrite !after_app.
  destruct (forallb isspace (skipn 6 x)) eqn:Hall.
  - reflexivity.
  - pose proof (after_nonempty isspace _ Hall) as Hne.
    change (str "CFLAGS" ++ y1) with ("C"%char :: str "FLAGS" ++ y1).
    change (str "CFLAGS" ++ y2) with ("C"%char :: str "FLAGS" ++ y2).
    destruct (flags_operator (after isspace (skipn 6 x) ++ "C"%char :: str "FLAGS" ++ y1))
      as [[op s2]|] eqn:Hop; [intros H; discriminate H|].
    intros _.
    rewrite (flags_operator_before_flags _ _ (str "FLAGS" ++ y2) Hne Hop).
    reflexivity.
Qed.

Lemma no_match_before_flags (pre x y1 y2 : text) :
  no_match_before cflags_re pre x (str "CFLAGS" ++ y1) ->
  no_match_before cflags_re pre x (str "CFLAGS" ++ y2).
Proof.
  intros Hno x1 c x2 Hx. specialize (Hno x1 c x2 Hx).
  rewrite match_at_flags_line in *.
  destruct (at_bol (rev x1 ++ pre)); [|reflexivity].
  change (c :: x2 ++ str "CFLAGS" ++ y1)
    with ((c :: x2) ++ str "CFLAGS" ++ y1) in Hno.
  change (c :: x2 ++ str "CFLAGS" ++ y2)
    with ((c :: x2) ++ str "CFLAGS" ++ y2).
  destruct (flags_line ((c :: x2) ++ str "CFLAGS" ++ y1))
    as [[[len op] v]|] eqn:Hf; [discriminate|].
  rewrite (flags_line_before_flags (c :: x2) y1 y2); [reflexivity|discriminate|exact Hf].
Qed.

(** ** The scan and the text before its start *)

Lemma flags_line_length (s : text) (len : nat) (op value : text) :
  flags_line s = Some (len, op, value) -> 0 < len <= length s.
Proof.
  intros Hf.
  apply flags_line_shape in Hf as (ws1 & ws2 & rest & -> & -> & _).
  rewrite !length_app. cbn [length]. rewrite !length_app.
  change (length (str "CFLAGS")) with 6. lia.
Qed.

(** The scan looks at the text before its start only to tell whether
    it starts a line. *)
Lemma matches_from_cflags_pre (s p1 p2 : text) (skip : nat) :
  at_bol p1 = at_bol p2 ->
  matches_from cflags_re p1 s skip = matches_from cflags_re p2 s skip.
Proof.
  revert p1 p2 skip. induction s as [|c s IH]; intros p1 p2 skip Hb.
  - cbn [matches_from]. rewrite !match_at_flags_line, Hb. reflexivity.
  - cbn [matches_from]. rewrite !match_at_flags_line, Hb.
    assert (Hc : forall k, matches_from cflags_re (c :: p1) s k
                           = matches_from cflags_re (c :: p2) s k).
    { intros k. apply IH. reflexivity. }
    destruct skip as [|n]; [|apply Hc].
    destruct (at_bol p2); [|apply Hc].
    destruct (flags_line (c :: s)) as [[[len op] v]|] eqn:Hf; [|apply Hc].
    apply flags_line_length in Hf.
    destruct len as [|n]; [lia|]. rewrite Hc. reflexivity.
Qed.

Lemma matches_from_cflags_none (s p1 p2 : text) :
  matches_from cflags_re p1 s 0 = [] ->
  at_bol p2 = false ->
  matches_from cflags_re p2 s 0 = [].
Proof.
  intros H Hb. destruct s as [|c s].
  - cbn [matches_from]. rewrite match_at_flags_line, Hb. reflexivity.
  - cbn [matches_from] in *. rewrite match_at_flags_line in *. rewrite Hb.
    rewrite (matches_from_cflags_pre s (c :: p2) (c :: p1) 0) by reflexivity.
    destruct (at_bol p1); [|exact H].
    destruct (flags_line (c :: s)) as [[[[|n] op] v]|]; try discriminate.
    exact H.
Qed.

(** ** Reading back what was written *)

Lemma universal_newlines_lacks_cr (s : text) :
  lacks CR (universal_newlines s) = true.
Proof.
  assert (H : forall n s, length s <= n -> lacks CR (universal_newlines s) = true).
  { clear s. induction n as [|n IH]; intros s Hn.
    - destruct s; [reflexivity|cbn [length] in Hn; lia].
    - destruct s as [|c s]; [reflexivity|].
      cbn [length] in Hn. cbn [universal_newlines].
      destruct (Ascii.eqb c CR) eqn:Hc.
      + cbn [lacks forallb]. destruct s as [|d s]; [reflexivity|].
        cbn [length] in Hn.
        destruct (Ascii.eqb d LF); apply IH; cbn [length]; lia.
      + cbn [lacks forallb]. rewrite Hc. apply IH. lia. }
  apply (H (length s)). reflexivity.
Qed.

Lemma universal_newlines_id (s : text) :
  lacks CR s = true -> universal_newlines s = s.
Proof.
  induction s as [|c s IH]; intros H; [reflexivity|].
  cbn [lacks forallb] in H. apply andb_prop in H as [Hc Hs].
  apply negb_true_iff in Hc. cbn [universal_newlines]. rewrite Hc.
  f_equal. apply IH, Hs.
Qed.

(** ** Patching twice *)

Lemma single_of_findall (t op value : text) :
  findall cflags_re t = [(op, value)] ->
  exists before m after, single_flags_line t before m after op value.
Proof.
  unfold findall. intros Hall.
  destruct (matches_from cflags_re [] t 0) as [|[m g] ms] eqn:Hms;
    [discriminate|].
  cbn [map fst snd] in Hall. injection Hall as Hop Hval Hothers.
  destruct ms; [|discriminate].
  destruct (first_match cflags_re match_at_cflags_length _ _ _ _ _ Hms)
    as (before & after & Hs & Hno & Hma & Hrest & _).
  rewrite app_nil_r in Hma, Hrest.
  rewrite match_at_flags_line in Hma.
  destruct (at_bol (rev before)) eqn:Hbol; [|discriminate].
  destruct (flags_line (m ++ after)) as [[[len op'] value']|] eqn:Hfl;
    [|discriminate].
  injection Hma as Hlen Hg. subst len g.
  cbn in Hop, Hval. subst op' value'.
  exists before, m, after. repeat split; try assumption.
  symmetry. exact Hrest.
Qed.

Lemma scan_single (t before m after op value : text) :
  single_flags_line t before m after op value ->
  matches_from cflags_re [] t 0 = [(m, [(2, value); (1, op)])]
  /\ forall tpl,
      sub_from cflags_re tpl [] t 0
      = before ++ expand_template tpl m [(2, value); (1, op)] ++ after.
Proof.
  intros (-> & Hno & Hbol & Hfl & Hrest).
  pose proof (flags_line_length _ _ _ _ Hfl) as Hlen.
  destruct (length m) as [|n] eqn:Hm; [lia|].
  destruct (scan_to_match cflags_re match_at_cflags_length before (m ++ after)
              [] n [(2, value); (1, op)] Hno) as [H1 H2].
  { rewrite match_at_flags_line, app_nil_r, Hbol, Hfl. reflexivity. }
  rewrite <- Hm in H1, H2.
  rewrite take_app_length, drop_app_length, app_nil_r in H1, H2.
  rewrite <- rev_app_distr in H1, H2.
  split.
  - rewrite H1, Hrest. reflexivity.
  - intros tpl. rewrite H2.
    rewrite (sub_from_no_match cflags_re tpl after _ Hrest). reflexivity.
Qed.

Lemma patch_text_single (a : args) (t before m after op value : text) :
  single_flags_line t before m after op value ->
  plain value = true ->
  (op = [] \/ op = [":"%char] \/ op = ["?"%char])
  /\ patch_text a t
     = Patched (before ++ replacement op (new_cflags a value) ++ after).
Proof.
  intros Hsingle Hplain.
  destruct (scan_single _ _ _ _ _ _ Hsingle) as [Hms Hsub].
  destruct Hsingle as (_ & _ & _ & Hfl & _).
  apply flags_line_shape in Hfl as (_ & _ & _ & _ & _ & _ & _ & Hopc & _).
  split; [exact Hopc|].
  assert (Hrepl : plain (replacement op (new_cflags a value)) = true).
  { unfold replacement. rewrite !plain_app, plain_new_cflags by exact Hplain.
    destruct Hopc as [->|[->| ->]]; reflexivity. }
  unfold patch_text, findall. rewrite Hms. cbn [map fst snd group Nat.eqb].
  rewrite (sub_plain _ _ _ Hrepl), Hsub, expand_template_plain. reflexivity.
Qed.

Lemma at_bol_after_value (v p q : text) :
  v <> [] -> lacks LF v = true -> at_bol (rev (p ++ v) ++ q) = false.
Proof.
  intros Hne Hv. rewrite rev_app_distr.
  rewrite <- (lacks_rev LF) in Hv.
  destruct (rev v) as [|c l] eqn:Hr.
  - exfalso. apply Hne. rewrite <- (rev_involutive v), Hr. reflexivity.
  - cbn [app at_bol]. cbn [lacks forallb] in Hv.
    apply andb_prop in Hv as [Hc _]. apply negb_true_iff in Hc. exact Hc.
Qed.

(** After the patch the text still has a single flags line, the one
    the patch wrote, when the new value is not empty. *)
Lemma single_after_patch (a : args) (t before m after op value : text) :
  single_flags_line t before m after op value ->
  new_cflags a value <> [] ->
  single_flags_line (before ++ replacement op (new_cflags a value) ++ after)
    before (replacement op (new_cflags a value)) after op (new_cflags a value).
Proof.
  intros (Ht & Hno & Hbol & Hfl & Hrest) Hne.
  pose proof (flags_line_shape _ _ _ _ Hfl)
    as (ws1 & ws2 & rest & Hshape & Hlen & _ & _ & Hopc & Hv & _ & Hrest').
  assert (Hsplit : m = str "CFLAGS" ++ ws1 ++ op ++ "="%char :: ws2 ++ value
                   /\ after = rest).
  { apply app_inj_1; [exact Hlen|].
    rewrite Hshape. rewrite <- !app_assoc. cbn [app].
    rewrite <- !app_assoc. reflexivity. }
  destruct Hsplit as [Hm Hafter]. subst rest.
  assert (Hlf : lacks LF (new_cflags a value) = true).
  { apply lacks_new_cflags; [reflexivity|exact Hv]. }
  split; [reflexivity|].
  split.
  { rewrite Hm in Hno. rewrite <- app_assoc in Hno.
    unfold replacement. rewrite <- !app_assoc.
    change (str "CFLAGS " ++ ?x) with (str "CFLAGS" ++ " "%char :: x).
    exact (no_match_before_flags _ _ _ _ Hno). }
  split; [exact Hbol|].
  split.
  { apply flags_line_canonical; try assumption. apply lstrip_new_cflags. }
  apply (matches_from_cflags_none after _ _ Hrest).
  unfold replacement. rewrite !app_assoc.
  rewrite <- (app_nil_r (rev _)).
  apply at_bol_after_value; assumption.
Qed.

(** The second patch changes nothing.  For a build file with a single
    flags line whose value holds no backslash, when the new value is not
    empty and is its own new value, a second patch with the same
    arguments reports no rewrite and leaves every file as the first
    patch left it. *)
Theorem update_makefile_idempotent (path : string) (a : args) (w : world)
    (t op value : text) :
  files w !! path = Some t ->
  findall cflags_re (universal_newlines t) = [(op, value)] ->
  plain value = true ->
  new_cflags a value <> [] ->
  new_cflags a (new_cflags a value) = new_cflags a value ->
  let first := update_makefile path a w in
  let second := update_makefile path a (snd first) in
  fst second = Ret (Some false) /\ files (snd second) = files (snd first).
Proof.
  intros Hf Hall Hplain Hne Hstable first second.
  destruct (single_of_findall _ _ _ Hall) as (before & m & after & Hsingle).
  destruct (patch_text_single a _ _ _ _ _ _ Hsingle Hplain) as [Hopc Hpatch].
  set (new := before ++ replacement op (new_cflags a value) ++ after) in *.
  subst first second.
  rewrite (update_makefile_unfold path a w). cbn zeta. rewrite Hf, Hpatch.
  destruct (text_eqb new (universal_newlines t)) eqn:Heq; cbn [snd].
  - rewrite update_makefile_unfold. cbn zeta. cbn [files add_log].
    rewrite Hf, Hpatch, Heq. split; reflexivity.
  - rewrite update_makefile_unfold. cbn zeta. cbn [files add_log set_files].
    rewrite lookup_insert_eq.
    assert (Hcr : lacks CR new = true).
    { pose proof (universal_newlines_lacks_cr t) as Hcr.
      destruct Hsingle as (Ht & _ & _ & Hfl & _). rewrite Ht in Hcr.
      rewrite !lacks_app in Hcr.
      apply andb_prop in Hcr as [Hb Hcr]. apply andb_prop in Hcr as [Hm Ha].
      unfold new, replacement. rewrite !lacks_app, Hb, Ha.
      apply flags_line_shape in Hfl
        as (ws1 & ws2 & rest & Hshape & Hlen & _ & _ & _ & _ & _ & _).
      assert (Hval : lacks CR value = true).
      { assert (Hmm : m = str "CFLAGS" ++ ws1 ++ op ++ "="%char :: ws2 ++ value).
        { apply (app_inj_1 _ _ after rest); [exact Hlen|].
          rewrite Hshape. rewrite <- !app_assoc. cbn [app].
          rewrite <- !app_assoc. reflexivity. }
        rewrite Hmm in Hm. rewrite !lacks_app in Hm.
        change ("="%char :: ws2 ++ value) with (["="%char] ++ ws2 ++ value) in Hm.
        rewrite !lacks_app in Hm.
        repeat (apply andb_prop in Hm as [_ Hm]). exact Hm. }
      rewrite (lacks_new_cflags CR a value eq_refl Hval).
      destruct Hopc as [->|[->| ->]]; reflexivity. }
    rewrite (universal_newlines_id new Hcr).
    pose proof (single_after_patch a _ _ _ _ _ _ Hsingle Hne) as Hsingle'.
    fold new in Hsingle'.
    destruct (patch_text_single a _ _ _ _ _ _ Hsingle'
                (plain_new_cflags a value Hplain)) as [_ Hpatch'].
    rewrite Hstable in Hpatch'. fold new in Hpatch'. rewrite Hpatch'.
    unfold text_eqb. rewrite (bool_decide_eq_true_2 (new = new) eq_refl).
    split; reflexivity.
Qed.

Lemma update_makefile_idempotent_witness :
  let path := "libft/Makefile"%string in
  let a := compile_args true false true in
  let t := line "NAME = libft.a" ++ line "CFLAGS=-Wall -Wextra -Werror"
           ++ line "all: $(NAME)" in
  let first := update_makefile path a (vendor_world path t) in
  let second := update_makefile path a (snd first) in
  fst second = Ret (Some false) /\ files (snd second) = files (snd first).
Proof.
  intros path a t.
  apply (update_makefile_idempotent path a (vendor_world path t) t []
           (str "-Wall -Wextra -Werror")).
  - vm_compute. reflexivity.
  - vm_compute. reflexivity.
  - vm_compute. reflexivity.
  - vm_compute. discriminate.
  - vm_compute. reflexivity.
Defined.

(** ** The vendor-flags patch on particular build files *)

(** C10.  The matched line is written back as [CFLAGS], a blank, the
    operator with [=], a blank and the value: the build file
    [CFLAGS=-Wall], patched without debug, has no [-g] to lose, and
    still the patch rewrites it and reports a rewrite. *)
Theorem noncanonical_spacing_is_rewritten :
  let path := "libft/Makefile"%string in
  let a := compile_args true false false in
  let w := vendor_world path (line "CFLAGS=-Wall") in
  findall cflags_re (line "CFLAGS=-Wall") = [([], str "-Wall")]
  /\ new_cflags a (str "-Wall") = str "-Wall"
  /\ replacement [] (str "-Wall") = str "CFLAGS = -Wall"
  /\ fst (update_makefile path a w) = Ret (Some true)
  /\ files (snd (update_makefile path a w)) !! path
     = Some (line "CFLAGS = -Wall").
Proof. vm_compute. repeat split; reflexivity. Qed.

(** C3, at a build file with two flags lines.  [re.sub] replaces every
    match by the line made from the first one: the second flags line
    loses its operator and its value. *)
Theorem update_makefile_rewrites_every_match :
  let path := "libft/Makefile"%string in
  let a := compile_args true false true in
  let w := vendor_world path
             (line "CFLAGS = -Wall" ++ line "all: $(NAME)"
              ++ line "CFLAGS ?= -O2") in
  fst (update_makefile path a w) = Ret (Some true)
  /\ files (snd (update_makefile path a w)) !! path
     = Some (line "CFLAGS = -Wall -g" ++ line "all: $(NAME)"
             ++ line "CFLAGS = -Wall -g").
Proof. vm_compute. split; reflexivity. Qed.

(** C4, at a build file whose flags are [-g] alone.  The first patch
    without debug leaves an empty value; the second one then reads the
    next line as the value, rewrites the file again and reports it. *)
Theorem update_makefile_second_call_rewrites :
  let path := "libft/Makefile"%string in
  let a := compile_args true false false in
  let w := vendor_world path (line "CFLAGS = -g" ++ line "all: $(NAME)") in
  let first := update_makefile path a w in
  let second := update_makefile path a (snd first) in
  fst first = Ret (Some true)
  /\ files (snd first) !! path = Some (line "CFLAGS = " ++ line "all: $(NAME)")
  /\ fst second = Ret (Some true)
  /\ files (snd second) !! path = Some (line "CFLAGS = all: $(NAME)").
Proof. vm_compute. repeat split; reflexivity. Qed.

(** C5, at a flags line that goes on after a backslash.  Without debug
    the value [-Wall -g \] becomes [-Wall \], which [re.sub] refuses as
    a replacement: the patch raises and writes nothing. *)
Theorem update_makefile_raises_on_backslash :
  let path := "libft/Makefile"%string in
  let a := compile_args true false false in
  let t := str "CFLAGS = -Wall -g " ++ [BACKSLASH] ++ nl
           ++ TAB :: line "-Wextra" in
  let w := vendor_world path t in
  findall cflags_re t = [([], str "-Wall -g " ++ [BACKSLASH])]
  /\ new_cflags a (str "-Wall -g " ++ [BACKSLASH]) = str "-Wall  " ++ [BACKSLASH]
  /\ fst (update_makefile path a w) = Raise TemplateError
  /\ files (snd (update_makefile path a w)) !! path = Some t
  /\ fst (create_makefile a false w) = Raise TemplateError.
Proof. vm_compute. repeat split; reflexivity. Qed.

(** C7, with the build file of C4 as libft's.  Nothing changes between
    the two runs of [compile], and the second run still finds the
    vendor build file rewritten and calls [make -B]. *)
Theorem second_compile_forces_rebuild :
  let a := compile_args true false false in
  let w := vendor_world "libft/Makefile"
             (line "CFLAGS = -g" ++ line "all: $(NAME)") in
  let first := run_compile a w in
  let second := run_compile a (snd first) in
  fst first = Ret true
  /\ cmds (snd first) = [str "norminette src includes"; str "make -B"]
  /\ fst second = Ret true
  /\ files (snd second) !! "Makefile" = files (snd first) !! "Makefile"
  /\ cmds (snd second)
     = cmds (snd first) ++ [str "norminette src includes"; str "make -B"].
Proof. vm_compute. repeat split; reflexivity. Qed.

(** * Further properties *)

(** ** The flags value under debug *)

Lemma lstrip_fixed (s : text) :
  match s with c :: _ => isspace c = false | [] => True end -> lstrip s = s.
Proof. destruct s as [|c s]; [reflexivity|]. cbn [lstrip]. now intros ->. Qed.

Lemma rstrip_snoc (s : text) (c : ascii) :
  isspace c = false -> rstrip (s ++ [c]) = s ++ [c].
Proof.
  intros Hc. unfold rstrip. rewrite rev_app_distr. cbn [rev app lstrip].
  rewrite Hc. cbn [rev]. rewrite rev_involutive. reflexivity.
Qed.

Lemma strip_idempotent (s : text) : strip (strip s) = strip s.
Proof.
  unfold strip at 1. rewrite lstrip_strip. unfold strip, rstrip.
  rewrite rev_involutive. f_equal.
  apply lstrip_fixed. apply lstrip_head.
Qed.

Lemma contains_app_r (sub a b : text) :
  contains sub b = true -> contains sub (a ++ b) = true.
Proof.
  intros H. induction a as [|c a IH]; [exact H|].
  cbn [app contains]. rewrite IH. apply orb_true_r.
Qed.

(** With a flag appended, a stripped value that is not empty needs no
    further stripping. *)
Lemma strip_with_marker (v : text) :
  strip (strip v ++ str " -g")
  = match strip v with
    | [] => str "-g"
    | _ :: _ => strip v ++ str " -g"
    end.
Proof.
  pose proof (lstrip_strip v) as Hl.
  destruct (strip v) as [|c y] eqn:Hs; [reflexivity|].
  assert (Hc : isspace c = false).
  { pose proof (lstrip_head (c :: y)) as H. rewrite Hl in H. exact H. }
  unfold strip at 1. cbn [app lstrip]. rewrite Hc.
  replace (c :: y ++ str " -g") with ((c :: y ++ str " -") ++ ["g"%char])
    by (cbn [app]; rewrite <- app_assoc; reflexivity).
  apply rstrip_snoc. reflexivity.
Qed.

(** The new value when debug is requested.  A value that holds the
    marker is kept, stripped; any other value gets [ -g] appended to its
    stripped form, and the empty value becomes [-g].  The new value
    always holds the marker, and asking again changes nothing. *)
Theorem new_cflags_with_debug (a : args) (value : text) :
  wants_debug a = true ->
  new_cflags a value
  = (if contains (str "-g") (strip value) then strip value
     else match strip value with
          | [] => str "-g"
          | _ :: _ => strip value ++ str " -g"
          end)
  /\ contains (str "-g") (new_cflags a value) = true
  /\ new_cflags a (new_cflags a value) = new_cflags a value.
Proof.
  intros Hd.
  assert (Hform : new_cflags a value
                  = if contains (str "-g") (strip value) then strip value
                    else match strip value with
                         | [] => str "-g"
                         | _ :: _ => strip value ++ str " -g"
                         end).
  { unfold new_cflags. rewrite Hd. cbn [andb negb].
    destruct (contains (str "-g") (strip value)); [reflexivity|].
    cbn [negb]. apply strip_with_marker. }
  assert (Hin : contains (str "-g") (new_cflags a value) = true).
  { rewrite Hform.
    destruct (contains (str "-g") (strip value)) eqn:Hc; [exact Hc|].
    destruct (strip value) as [|c y]; [reflexivity|].
    replace (str " -g") with (str " " ++ str "-g") by reflexivity.
    rewrite app_assoc. apply contains_app_r. reflexivity. }
  split; [exact Hform|]. split; [exact Hin|].
  assert (Hs : strip (new_cflags a value) = new_cflags a value).
  { rewrite Hform.
    destruct (contains (str "-g") (strip value)); [apply strip_idempotent|].
    rewrite <- strip_with_marker. apply strip_idempotent. }
  unfold new_cflags at 1. rewrite Hd, Hs, Hin. reflexivity.
Qed.

Lemma new_cflags_with_debug_witness :
  let a := compile_args true false true in
  new_cflags a (str "-Wall -Wextra  ") = str "-Wall -Wextra -g"
  /\ contains (str "-g") (new_cflags a (str "-Wall -Wextra  ")) = true
  /\ new_cflags a (new_cflags a (str "-Wall -Wextra  "))
     = new_cflags a (str "-Wall -Wextra  ").
Proof.
  intros a.
  exact (new_cflags_with_debug a (str "-Wall -Wextra  ") eq_refl).
Defined.

(** ** What the pattern takes for a flags line *)

(** A match of the pattern of line 237.  It starts at the start of a
    line and reads the word [CFLAGS], white space, one of the operators
    [=], [:=] and [?=], white space again, and the value; the white
    space may hold line feeds, the value holds none, does not start
    with white space and runs to the end of its line.  The groups are
    the operator without its equals sign and the value. *)
Theorem cflags_pattern_match (pre s : text) (len : nat) (g : caps) :
  match_at cflags_re pre s = Some (len, g) ->
  at_bol pre = true
  /\ exists ws1 op ws2 value rest,
       s = str "CFLAGS" ++ ws1 ++ op ++ "="%char :: ws2 ++ value ++ rest
       /\ len = length (str "CFLAGS" ++ ws1 ++ op ++ "="%char :: ws2 ++ value)
       /\ g = [(2, value); (1, op)]
       /\ forallb isspace ws1 = true /\ forallb isspace ws2 = true
       /\ (op = [] \/ op = [":"%char] \/ op = ["?"%char])
       /\ forallb notnl value = true
       /\ lstrip value = value
       /\ at_eol rest = true.
Proof.
  rewrite match_at_flags_line.
  destruct (at_bol pre); [|discriminate].
  destruct (flags_line s) as [[[len' op] value]|] eqn:Hf; [|discriminate].
  intros [= <- <-]. split; [reflexivity|].
  destruct (flags_line_shape s len' op value Hf)
    as (ws1 & ws2 & rest & Hs & Hlen & H1 & H2 & Hop & Hv & Hl & Hr).
  exists ws1, op, ws2, value, rest. repeat split; assumption.
Qed.

Lemma cflags_pattern_match_witness :
  let s := str "CFLAGS" ++ TAB :: str ":=" ++ LF :: str "  -O2 -g"
           ++ LF :: line "all: $(NAME)" in
  at_bol [] = true
  /\ exists ws1 op ws2 value rest,
       s = str "CFLAGS" ++ ws1 ++ op ++ "="%char :: ws2 ++ value ++ rest
       /\ 18 = length (str "CFLAGS" ++ ws1 ++ op ++ "="%char :: ws2 ++ value)
       /\ [(2, str "-O2 -g"); (1, str ":")] = [(2, value); (1, op)]
       /\ forallb isspace ws1 = true /\ forallb isspace ws2 = true
       /\ (op = [] \/ op = [":"%char] \/ op = ["?"%char])
       /\ forallb notnl value = true
       /\ lstrip value = value
       /\ at_eol rest = true.
Proof.
  intros s.
  apply (cflags_pattern_match [] s 18 [(2, str "-O2 -g"); (1, str ":")]).
  vm_compute. reflexivity.
Defined.

(** ** What a patch and a creation leave alone *)

(** The patch of a vendor build file touches that file only, and only
    when it reports a rewrite: whenever it raises, finds no flags line
    or reports no rewrite, every file is as it was.  When it reports a
    rewrite the file was there and its new text is not the text that
    was read.  The source tree, the working directory and the commands
    run are never touched. *)
Theorem update_makefile_frame (path : string) (a : args) (w : world) :
  let run := update_makefile path a w in
  same_env w (snd run)
  /\ (forall p, p <> path -> files (snd run) !! p = files w !! p)
  /\ (fst run <> Ret (Some true) -> files (snd run) = files w)
  /\ (fst run = Ret (Some true) ->
      exists t new,
        files w !! path = Some t
        /\ files (snd run) !! path = Some new
        /\ new <> universal_newlines t).
Proof.
  cbn zeta. rewrite update_makefile_unfold. cbn zeta.
  destruct (files w !! path) as [t|] eqn:Hf.
  2:{ cbn [fst snd files add_log]. repeat split; try reflexivity.
      intros H. discriminate H. }
  destruct (patch_text a (universal_newlines t)) as [| |t'].
  1,2: cbn [fst snd files add_log]; repeat split; try reflexivity;
       intros H; discriminate H.
  destruct (text_eqb t' (universal_newlines t)) eqn:Heq;
    cbn [fst snd files add_log set_files].
  - repeat split; try reflexivity. intros H. discriminate H.
  - split; [repeat split|].
    split; [intros p Hp; apply lookup_insert_ne; congruence|].
    split; [intros H; contradiction H; reflexivity|].
    intros _. exists t, t'. split; [reflexivity|].
    split; [apply lookup_insert_eq|].
    unfold text_eqb in Heq. apply bool_decide_eq_false in Heq. exact Heq.
Qed.

Lemma update_makefile_frame_witness :
  let path := "libft/Makefile"%string in
  let a := compile_args true false true in
  let w := vendor_world path (line "CFLAGS = -Wall") in
  let run := update_makefile path a w in
  files (snd run) !! "Makefile" = files w !! "Makefile"
  /\ exists t new,
      files w !! path = Some t
      /\ files (snd run) !! path = Some new
      /\ new <> universal_newlines t.
Proof.
  intros path a w run.
  destruct (update_makefile_frame path a w) as (_ & Hother & _ & Hsome).
  split.
  - apply Hother. discriminate.
  - apply Hsome. vm_compute. reflexivity.
Defined.

Lemma stable_vendors_included (P : gmap string text -> Prop) (w0 : world)
    (a : args) (modified : bool) :
  (libft a = true -> forall f c, P f -> P (<["libft/Makefile"%string := c]> f)) ->
  (minilibx a = true ->
   forall f c, P f -> P (<["minilibx/Makefile.mk"%string := c]> f)) ->
  stable (files_inv P w0) (update_vendors a modified).
Proof.
  intros H1 H2. unfold update_vendors.
  apply stable_bind.
  - destruct (libft a); [|apply stable_ret].
    apply stable_bind; [|intros; apply stable_ret].
    unfold update_libft_makefile.
    apply stable_bind; [apply stable_logging|intros _].
    apply stable_update_makefile, H1. reflexivity.
  - intros m. destruct (minilibx a); [|apply stable_ret].
    apply stable_bind; [|intros; apply stable_ret].
    unfold update_minilibx_makefile.
    apply stable_bind; [apply stable_logging|intros _].
    apply stable_update_makefile, H2. reflexivity.
Qed.

(** Creating the Makefile touches the Makefile and the build files of
    the included libraries, and nothing else: every other file, the
    build file of a library that is not included, the source tree, the
    working directory and the commands run are as they were, whether
    the creation returns or raises. *)
Theorem create_makefile_frame (a : args) (warn : bool) (w : world) :
  let w' := snd (create_makefile a warn w) in
  same_env w w'
  /\ forall p : string,
      p <> "Makefile"%string ->
      (p = "libft/Makefile"%string -> libft a = false) ->
      (p = "minilibx/Makefile.mk"%string -> minilibx a = false) ->
      files w' !! p = files w !! p.
Proof.
  cbn zeta. split; [apply create_makefile_writes|].
  intros p Hp Hl Hm.
  destruct (create_makefile_unfold a warn w) as (w1 & He & Hf & ->).
  pose proof (write_makefile_post a w1) as (_ & He2 & Hf2 & _).
  destruct (write_makefile a w1) as [[[]|e] w2]; cbn [snd] in *.
  - assert (Hinv : files_inv (fun f => f !! p = files w !! p) w w2).
    { split; [rewrite Hf2, Hf by exact Hp; reflexivity|].
      exact (same_env_trans _ _ _ He He2). }
    refine (proj1 (_ : files_inv (fun f => f !! p = files w !! p) w _)).
    revert Hinv. generalize w2.
    change (stable (files_inv (fun f => f !! p = files w !! p) w)
              (logging DEBUG (str "Makefile created/updated successfully") >>
               let! modified :=
                 update_vendors a
                   (warn && bool_decide (is_Some (files w !! "Makefile"))) in
               let! new := read_file "Makefile" in
               ret (if differs (universal_newlines <$> files w !! "Makefile") new
                    then true else modified))).
    apply stable_bind; [apply stable_logging|intros _].
    apply stable_bind.
    + apply stable_vendors_included.
      * intros Hlib f c Hfp. rewrite lookup_insert_ne; [exact Hfp|].
        intros <-. rewrite (Hl eq_refl) in Hlib. discriminate.
      * intros Hlib f c Hfp. rewrite lookup_insert_ne; [exact Hfp|].
        intros <-. rewrite (Hm eq_refl) in Hlib. discriminate.
    + intros m. apply stable_bind; [apply stable_read_file|].
      intros new. apply stable_ret.
  - rewrite Hf2, Hf by exact Hp. reflexivity.
Qed.

Lemma create_makefile_frame_witness :
  let a := compile_args true false true in
  let w := vendor_world "minilibx/Makefile.mk" (line "CFLAGS = -O3") in
  files (snd (create_makefile a false w)) !! "minilibx/Makefile.mk"
  = files w !! "minilibx/Makefile.mk".
Proof.
  intros a w.
  apply (proj2 (create_makefile_frame a false w)); [discriminate| |reflexivity].
  intros H. discriminate H.
Defined.

(** ** Creating the Makefile when something is missing *)

Lemma write_makefile_without_src (a : args) (w : world) :
  src_dir w = None ->
  fst (write_makefile a w) = Raise (FileNotFoundError "src")
  /\ files (snd (write_makefile a w)) = <["Makefile"%string := []]> (files w).
Proof.
  intros Hsrc.
  unfold write_makefile, render, get_sources, get_all_files_src, bind,
    write_file, ret.
  cbn [src_dir set_files]. rewrite Hsrc. split; reflexivity.
Qed.

(** When the creation returns, the directory [src] was there. *)
Lemma create_makefile_returns_src (a : args) (warn : bool) (w : world)
    (m : bool) (w' : world) :
  create_makefile a warn w = (Ret m, w') -> is_Some (src_dir w).
Proof.
  intros Hrun. destruct (src_dir w) as [entries|] eqn:Hsrc; [eauto|].
  destruct (create_makefile_unfold a warn w) as (w1 & He & _ & Heq).
  rewrite Heq in Hrun.
  assert (Hsrc1 : src_dir w1 = None) by (rewrite (proj1 He); exact Hsrc).
  pose proof (write_makefile_without_src a w1 Hsrc1) as [Hr _].
  destruct (write_makefile a w1) as [[[]|e] w2]; discriminate.
Qed.

(** Without the directory [src] the creation raises, and it has
    emptied the Makefile first: a Makefile that was there is lost.  No
    vendor build file is read or written. *)
Theorem create_makefile_without_src (a : args) (warn : bool) (w : world) :
  src_dir w = None ->
  let run := create_makefile a warn w in
  fst run = Raise (FileNotFoundError "src")
  /\ files (snd run) !! "Makefile" = Some []
  /\ forall p, p <> "Makefile"%string -> files (snd run) !! p = files w !! p.
Proof.
  intros Hsrc. cbn zeta.
  destruct (create_makefile_unfold a warn w) as (w1 & He & Hf & ->).
  assert (Hsrc1 : src_dir w1 = None) by (rewrite (proj1 He); exact Hsrc).
  pose proof (write_makefile_without_src a w1 Hsrc1) as [Hr Hfiles].
  destruct (write_makefile a w1) as [[[]|e] w2]; [discriminate Hr|].
  cbn [fst snd] in *. rewrite Hfiles.
  injection Hr as ->.
  split; [reflexivity|]. split; [apply lookup_insert_eq|].
  intros p Hp. rewrite lookup_insert_ne by congruence. apply Hf, Hp.
Qed.

Lemma create_makefile_without_src_witness :
  let a := compile_args false false false in
  let w := mkWorld {["Makefile"%string := line "all:"]} None (str "/tmp/p")
             [] [] [] (fun _ => true) in
  let run := create_makefile a false w in
  fst run = Raise (FileNotFoundError "src")
  /\ files (snd run) !! "Makefile" = Some []
  /\ forall p, p <> "Makefile"%string -> files (snd run) !! p = files w !! p.
Proof.
  intros a w. exact (create_makefile_without_src a false w eq_refl).
Defined.

Lemma update_makefile_missing (path : string) (a : args) (w : world) :
  files w !! path = None ->
  update_makefile path a w
  = (Raise (FileNotFoundError path), add_log DEBUG (updating_message path) w).
Proof.
  intros Hf. rewrite update_makefile_unfold. cbn zeta. rewrite Hf. reflexivity.
Qed.

(** An included library without its build file.  The Makefile is
    rendered and written first; then the patch of the missing build
    file raises, and what comes after is not done: when libft's build
    file is missing, minilibx's is not touched. *)
Theorem create_makefile_missing_vendor (a : args) (warn : bool) (w : world) :
  is_Some (src_dir w) ->
  (libft a = true /\ files w !! "libft/Makefile" = None
   \/ libft a = false /\ minilibx a = true
      /\ files w !! "minilibx/Makefile.mk" = None) ->
  let run := create_makefile a warn w in
  fst run = Raise (FileNotFoundError
                     (if libft a then "libft/Makefile"
                      else "minilibx/Makefile.mk"))
  /\ files (snd run) !! "Makefile" = Some (makefile_content a w)
  /\ forall p, p <> "Makefile"%string -> files (snd run) !! p = files w !! p.
Proof.
  intros Hsrc Hmiss. cbn zeta.
  pose proof (create_makefile_writes a warn w) as [Hmk _].
  split; [|split; [exact Hmk|]].
  - destruct (create_makefile_unfold a warn w) as (w1 & He & Hf & ->).
    pose proof (write_makefile_post a w1) as (_ & _ & Hf2 & Hret).
    rewrite (proj1 He) in Hret. specialize (Hret Hsrc).
    destruct (write_makefile a w1) as [r w2]. cbn [fst snd] in *. subst r.
    unfold bind at 1. unfold logging at 1. unfold bind at 1.
    unfold update_vendors, update_libft_makefile, update_minilibx_makefile.
    destruct Hmiss as [[Hl Hnone]|(Hl & Hm & Hnone)]; rewrite Hl.
    + unfold bind at 1. unfold bind at 1. unfold bind at 1.
      unfold logging at 1.
      rewrite update_makefile_missing; [reflexivity|].
      cbn [files add_log]. rewrite Hf2, Hf by discriminate. exact Hnone.
    + rewrite Hm. unfold bind at 1. unfold ret at 1.
      unfold bind at 1. unfold bind at 1. unfold logging at 1.
      rewrite update_makefile_missing; [reflexivity|].
      cbn [files add_log]. rewrite Hf2, Hf by discriminate. exact Hnone.
  - intros p Hp.
    destruct (create_makefile_unfold a warn w) as (w1 & He & Hf & ->).
    pose proof (write_makefile_post a w1) as (_ & _ & Hf2 & Hret).
    rewrite (proj1 He) in Hret. specialize (Hret Hsrc).
    destruct (write_makefile a w1) as [r w2]. cbn [fst snd] in *. subst r.
    unfold bind at 1. unfold logging at 1. unfold bind at 1.
    unfold update_vendors, update_libft_makefile, update_minilibx_makefile.
    destruct Hmiss as [[Hl Hnone]|(Hl & Hm & Hnone)]; rewrite Hl.
    + unfold bind at 1. unfold bind at 1. unfold bind at 1.
      unfold logging at 1.
      rewrite update_makefile_missing.
      * cbn [snd files add_log]. rewrite Hf2, Hf by exact Hp. reflexivity.
      * cbn [files add_log]. rewrite Hf2, Hf by discriminate. exact Hnone.
    + rewrite Hm. unfold bind at 1. unfold ret at 1.
      unfold bind at 1. unfold bind at 1. unfold logging at 1.
      rewrite update_makefile_missing.
      * cbn [snd files add_log]. rewrite Hf2, Hf by exact Hp. reflexivity.
      * cbn [files add_log]. rewrite Hf2, Hf by discriminate. exact Hnone.
Qed.

Lemma create_makefile_missing_vendor_witness :
  let a := compile_args true true false in
  let w := vendor_world "minilibx/Makefile.mk" (line "CFLAGS = -O3 -g") in
  let run := create_makefile a false w in
  fst run = Raise (FileNotFoundError "libft/Makefile")
  /\ files (snd run) !! "Makefile" = Some (makefile_content a w)
  /\ forall p, p <> "Makefile"%string -> files (snd run) !! p = files w !! p.
Proof.
  intros a w.
  apply (create_makefile_missing_vendor a false w).
  - vm_compute. eauto.
  - left. split; vm_compute; reflexivity.
Defined.

(** ** A changed configuration *)

Lemma universal_newlines_app_plain (p x : text) :
  lacks CR p = true -> universal_newlines (p ++ x) = p ++ universal_newlines x.
Proof.
  induction p as [|c p IH]; intros H; [reflexivity|].
  cbn [lacks forallb] in H. apply andb_prop in H as [Hc Hp].
  apply negb_true_iff in Hc. cbn [app universal_newlines]. rewrite Hc.
  f_equal. apply IH, Hp.
Qed.

(** Two texts that agree up to and after their first line feed *)
Lemma first_line_inj (a b x y : text) :
  lacks LF a = true -> lacks LF b = true ->
  a ++ LF :: x = b ++ LF :: y -> a = b /\ x = y.
Proof.
  revert b. induction a as [|c a IH]; intros [|d b] Ha Hb H.
  - injection H as ->. split; reflexivity.
  - injection H as <- _. cbn [lacks forallb] in Hb.
    rewrite Ascii.eqb_refl in Hb. discriminate Hb.
  - injection H as -> _. cbn [lacks forallb] in Ha.
    rewrite Ascii.eqb_refl in Ha. discriminate Ha.
  - injection H as -> H.
    cbn [lacks forallb] in Ha, Hb.
    apply andb_prop in Ha as [_ Ha]. apply andb_prop in Hb as [_ Hb].
    destruct (IH b Ha Hb H) as [-> ->]. split; reflexivity.
Qed.

Lemma get_ld_flags_cases (a : args) :
  get_ld_flags a =
  match libft a, minilibx a with
  | true, true => str "-L./libft -lft -L./minilibx -lmlx -lX11 -lXext -lm"
  | true, false => str "-L./libft -lft"
  | false, true => str "-L./minilibx -lmlx -lX11 -lXext -lm"
  | false, false => []
  end.
Proof.
  unfold get_ld_flags. destruct (libft a), (minilibx a); vm_compute; reflexivity.
Qed.

(** The rendered text determines the configuration it was rendered
    from, also after the translation of line ends: the flags lines
    differ as soon as the debug switch or an optional library does. *)
Lemma makefile_template_configuration (a a' : args)
    (sources name sources' name' : text) :
  universal_newlines (makefile_template a sources name)
  = universal_newlines (makefile_template a' sources' name') ->
  wants_debug a = wants_debug a' /\ libft a = libft a'
  /\ minilibx a = minilibx a'.
Proof.
  unfold makefile_template. intros H.
  assert (Hc : forall x, lacks CR (get_c_flags x) = true).
  { intros x. rewrite get_c_flags_cases.
    destruct (wants_debug x), (libft x), (minilibx x); reflexivity. }
  assert (Hcl : forall x, lacks LF (get_c_flags x) = true).
  { intros x. rewrite get_c_flags_cases.
    destruct (wants_debug x), (libft x), (minilibx x); reflexivity. }
  assert (Hl : forall x, lacks CR (get_ld_flags x) = true).
  { intros x. rewrite get_ld_flags_cases.
    destruct (libft x), (minilibx x); reflexivity. }
  assert (Hll : forall x, lacks LF (get_ld_flags x) = true).
  { intros x. rewrite get_ld_flags_cases.
    destruct (libft x), (minilibx x); reflexivity. }
  rewrite !(universal_newlines_app_plain (line _)) in H by reflexivity.
  rewrite !(universal_newlines_app_plain nl) in H by reflexivity.
  rewrite !(universal_newlines_app_plain (line _)) in H by reflexivity.
  rewrite !(universal_newlines_app_plain nl) in H by reflexivity.
  rewrite !(universal_newlines_app_plain (line _)) in H by reflexivity.
  rewrite !(universal_newlines_app_plain (str "CFLAGS = ")) in H by reflexivity.
  rewrite !(universal_newlines_app_plain (get_c_flags _)) in H by apply Hc.
  rewrite !(universal_newlines_app_plain nl) in H by reflexivity.
  rewrite !(universal_newlines_app_plain (str "LDFLAGS = ")) in H by reflexivity.
  rewrite !(universal_newlines_app_plain (get_ld_flags _)) in H by apply Hl.
  rewrite !(universal_newlines_app_plain nl) in H by reflexivity.
  do 6 apply app_inv_head in H.
  apply (first_line_inj _ _ _ _ (Hcl a) (Hcl a')) in H as [Hcf H].
  apply app_inv_head in H.
  apply (first_line_inj _ _ _ _ (Hll a) (Hll a')) in H as [Hlf _].
  rewrite !get_c_flags_cases in Hcf. rewrite !get_ld_flags_cases in Hlf.
  destruct (wants_debug a), (wants_debug a'), (libft a), (libft a'),
    (minilibx a), (minilibx a');
    first [discriminate Hcf | discriminate Hlf | repeat split].
Qed.

(** A creation after a creation with another configuration.  When the
    debug switch or the choice of optional libraries has changed since
    the Makefile was created, the next creation never returns false: it
    reports a change, so that the compilation it is part of forces a
    rebuild, or it raises. *)
Theorem create_makefile_after_reconfiguration (a a' : args) (warn warn' : bool)
    (w : world) :
  is_Some (src_dir w) ->
  wants_debug a <> wants_debug a' \/ libft a <> libft a'
  \/ minilibx a <> minilibx a' ->
  fst (create_makefile a' warn' (snd (create_makefile a warn w))) <> Ret false.
Proof.
  intros Hsrc Hconf Hfalse.
  destruct (create_makefile a' warn' (snd (create_makefile a warn w)))
    as [r w'] eqn:Hrun.
  cbn [fst] in Hfalse. subst r.
  destruct (create_makefile_result a' warn' _ false w' Hrun) as (_ & Hres).
  clear Hrun.
  pose proof (create_makefile_writes a warn w) as (Hmk & He).
  cbn zeta in Hmk, He.
  rewrite Hmk in Hres. cbn [fmap option_fmap option_map] in Hres.
  rewrite (makefile_content_env a' _ _ He) in Hres.
  assert (Hd : differs (Some (universal_newlines (makefile_content a w)))
                 (universal_newlines (makefile_content a' w)) = true).
  { destruct (differs (Some _) _) eqn:Hd in |- *; [reflexivity|].
    apply differs_false in Hd as (t & Ht & _ & Heq).
    injection Ht as <-. exfalso.
    destruct Hsrc as [entries Hsrc].
    unfold makefile_content in Heq. rewrite Hsrc in Heq.
    symmetry in Heq.
    apply makefile_template_configuration in Heq as (H1 & H2 & H3).
    destruct Hconf as [H|[H|H]]; contradiction. }
  rewrite Hd in Hres. discriminate Hres.
Qed.

Lemma create_makefile_after_reconfiguration_witness :
  fst (create_makefile (compile_args false false true) false
         (snd (create_makefile (init_args false false) true rendered_world)))
  <> Ret false.
Proof.
  apply (create_makefile_after_reconfiguration
           (init_args false false) (compile_args false false true) true false
           rendered_world).
  - vm_compute. eauto.
  - left. vm_compute. discriminate.
Defined.

(** ** What a compilation reports *)

Lemma run_make_result (a : args) (force : bool) (w : world) :
  exists w',
    run_make a force w = (Ret (exit_ok w (make_command force)), w')
    /\ then_ran w w' [make_command force].
Proof.
  unfold run_make. unfold bind at 1. unfold logging at 1.
  unfold bind at 1.
  destruct (run_command_unchecked (make_command force)
              (add_log DEBUG (str "Running make") w)) as (w' & -> & H).
  unfold bind, logging, ret. cbn [exit_ok add_log].
  eexists. split; [reflexivity|exact H].
Qed.

Lemma norminette_step (a : args) (w : world) :
  exists w',
    (if wants_norminette a then run_norminette >> ret tt else ret tt) w
    = (Ret tt, w')
    /\ then_ran w w'
         (if wants_norminette a then [str "norminette src includes"] else []).
Proof.
  destruct (wants_norminette a).
  - destruct (run_norminette_post w) as (ok & w' & Hr & H).
    exists w'. unfold bind, ret. rewrite Hr. split; [reflexivity|exact H].
  - exists w. split; [reflexivity|]. repeat split. symmetry. apply app_nil_r.
Qed.

(** After the creation has returned, the compilation returns the
    status of [make]. *)
Lemma run_compile_returns (a : args) (w : world) (force : bool) (w1 : world) :
  create_makefile a false (add_log DEBUG (str "Running compile") w)
  = (Ret force, w1) ->
  exists w',
    run_compile a w = (Ret (exit_ok w (make_command force)), w')
    /\ then_ran w1 w'
         ((if wants_norminette a then [str "norminette src includes"] else [])
          ++ [make_command force])
    /\ same_env w w1.
Proof.
  intros Hc. set (w0 := add_log DEBUG (str "Running compile") w) in *.
  pose proof (create_makefile_writes a false w0) as (_ & He).
  rewrite Hc in He. cbn [snd] in He.
  assert (Hsrc1 : is_Some (src_dir w1)).
  { rewrite (proj1 He). apply (create_makefile_returns_src a false w0 _ _ Hc). }
  unfold run_compile. unfold bind at 1. unfold logging at 1.
  unfold bind at 1. fold w0. rewrite Hc.
  destruct (norminette_step a w1) as (w2 & Hr2 & H2).
  unfold bind at 1. rewrite Hr2.
  assert (Hsrc2 : is_Some (src_dir w2)).
  { destruct H2 as (_ & -> & _). exact Hsrc1. }
  destruct (copy_source_structure_post w2 Hsrc2) as (w3 & Hr3 & H3).
  unfold bind at 1. rewrite Hr3.
  destruct (run_make_result a force w3) as (w4 & Hr4 & H4).
  unfold bind at 1. rewrite Hr4.
  pose proof (then_ran_trans _ _ _ _ _ (then_ran_trans _ _ _ _ _ H2 H3) H4) as H.
  rewrite app_nil_r in H.
  assert (Hx : exit_ok w3 = exit_ok w).
  { destruct H3 as (_ & _ & _ & -> & _). destruct H2 as (_ & _ & _ & -> & _).
    destruct He as (_ & _ & _ & _ & ->). reflexivity. }
  rewrite Hx.
  destruct (exit_ok w (make_command force)); unfold bind, logging, ret;
    eexists; (split; [reflexivity|split; [exact H|exact He]]).
Qed.

Lemma run_compile_raises (a : args) (w : world) (e : exn) (w1 : world) :
  create_makefile a false (add_log DEBUG (str "Running compile") w)
  = (Raise e, w1) ->
  run_compile a w = (Raise e, w1) /\ same_env w w1.
Proof.
  intros Hc. set (w0 := add_log DEBUG (str "Running compile") w) in *.
  pose proof (create_makefile_writes a false w0) as (_ & He).
  rewrite Hc in He. cbn [snd] in He. split; [|exact He].
  unfold run_compile. unfold bind at 1. unfold logging at 1.
  unfold bind at 1. fold w0. rewrite Hc. reflexivity.
Qed.


(** ** The sources and their object directories *)



Lemma endswith_snoc (s : text) (c : ascii) : endswith [c] (s ++ [c]) = true.
Proof.
  unfold endswith. rewrite rev_app_distr. cbn [rev app startswith].
  rewrite Ascii.eqb_refl. reflexivity.
Qed.










(** ** The optional libraries in the rendered Makefile *)

(** The pieces of the Makefile agree on the libraries.  An included
    library is a prerequisite of the program, has a rule that builds
    its archive, is linked, and is cleaned and rebuilt with the
    program; a library that is not included occurs in none of the
    pieces.  The rule [fclean] asks minilibx for [clean], never for
    [fclean]. *)
Theorem library_pieces_agree (a : args) :
  contains (str "libft/libft.a") (get_libs a) = libft a
  /\ contains (str "libft/libft.a:") (get_lib_rules a) = libft a
  /\ contains (str "-L./libft -lft") (get_ld_flags a) = libft a
  /\ contains (str "$(MAKE) -C libft clean") (get_clean_commands a) = libft a
  /\ contains (str "$(MAKE) -C libft fclean") (get_fclean_commands a) = libft a
  /\ contains (str "$(MAKE) -C libft re") (get_re_commands a) = libft a
  /\ contains (str "minilibx/libmlx.a") (get_libs a) = minilibx a
  /\ contains (str "minilibx/libmlx.a:") (get_lib_rules a) = minilibx a
  /\ contains (str "-L./minilibx -lmlx") (get_ld_flags a) = minilibx a
  /\ contains (str "$(MAKE) -C minilibx clean") (get_clean_commands a)
     = minilibx a
  /\ contains (str "$(MAKE) -C minilibx clean") (get_fclean_commands a)
     = minilibx a
  /\ contains (str "$(MAKE) -C minilibx fclean") (get_fclean_commands a) = false
  /\ contains (str "$(MAKE) -C minilibx re") (get_re_commands a) = minilibx a
  /\ contains (str "## Libraries ##") (get_lib_rules a)
     = libft a || minilibx a.
Proof.
  unfold get_libs, get_lib_rules, get_ld_flags, get_clean_commands,
    get_fclean_commands, get_re_commands.
  destruct (libft a), (minilibx a); vm_compute; repeat split.
Qed.

(** ** Running the project *)

(** The command that starts the program: under [valgrind] when debug is
    requested *)
Lemma launch (r : run_args) (w : world) (command : text) (valgrind : bool) :
  command = (if valgrind then str "valgrind ./" else str "./")
            ++ basename (cwd w) ++ str " " ++ quoted_options r ->
  let run := (if valgrind then run_valgrind r else run_project r) w in
  fst run = (if exit_ok w command then Ret tt
             else Raise (CalledProcessError command))
  /\ cmds (snd run) = cmds w ++ [command]
  /\ files (snd run) = files w.
Proof.
  intros ->. cbn zeta.
  destruct valgrind; unfold run_valgrind, run_project, run_command, bind,
    logging, get_project_name, ret; cbn [cwd exit_ok add_log andb];
    destruct (exit_ok w _); cbn [negb fst snd cmds files add_cmd add_log];
    repeat split.
Qed.

(** The outcome of [run_run].  The program is started only after a
    compilation that returned true; a failed compilation ends the run
    silently, and an exception of the compilation is passed on.  The
    program is started as [./name] with each option between single
    quotes, behind [valgrind] when debug is requested, and a status
    other than zero is raised as an exception. *)
Theorem run_run_result (r : run_args) (w : world) :
  let compiled :=
    run_compile (args_of r)
      (add_log DEBUG (str "Compiling and running project") w) in
  let command :=
    (if run_debug r then str "valgrind ./" else str "./")
    ++ basename (cwd w) ++ str " " ++ quoted_options r in
  let run := run_run r w in
  match fst compiled with
  | Ret true =>
      fst run = (if exit_ok w command then Ret tt
                 else Raise (CalledProcessError command))
      /\ cmds (snd run) = cmds (snd compiled) ++ [command]
  | Ret false => fst run = Ret tt /\ cmds (snd run) = cmds (snd compiled)
  | Raise e => fst run = Raise e /\ cmds (snd run) = cmds (snd compiled)
  end.
Proof.
  cbn zeta.
  set (w0 := add_log DEBUG (str "Compiling and running project") w).
  assert (Henv : cwd (snd (run_compile (args_of r) w0)) = cwd w
                 /\ exit_ok (snd (run_compile (args_of r) w0)) = exit_ok w).
  { destruct (create_makefile (args_of r) false
                (add_log DEBUG (str "Running compile") w0))
      as [[force|e] w1] eqn:Hc.
    - destruct (run_compile_returns _ w0 force w1 Hc) as (w' & -> & H & He).
      cbn [snd]. destruct H as (_ & _ & -> & -> & _).
      destruct He as (_ & -> & _ & _ & ->). split; reflexivity.
    - destruct (run_compile_raises _ w0 e w1 Hc) as (-> & He).
      cbn [snd]. destruct He as (_ & -> & _ & _ & ->). split; reflexivity. }
  assert (Hrun : run_run r w
                 = match run_compile (args_of r) w0 with
                   | (Ret true, w') =>
                       (if run_debug r then run_valgrind r else run_project r) w'
                   | (Ret false, w') => (Ret tt, w')
                   | (Raise e, w') => (Raise e, w')
                   end).
  { unfold run_run. unfold bind at 1. unfold logging at 1.
    unfold bind at 1. fold w0.
    destruct (run_compile (args_of r) w0) as [[[]|e] w']; cbn [negb];
      [destruct (run_debug r)|..]; reflexivity. }
  rewrite Hrun.
  destruct (run_compile (args_of r) w0) as [[[]|e] w']; cbn [fst snd] in *;
    [|split; reflexivity..].
  destruct Henv as [Hcwd Hx].
  pose proof (launch r w' _ (run_debug r) eq_refl) as (Hr & Hc & _).
  cbn zeta in Hr, Hc. rewrite Hcwd, Hx in Hr. rewrite Hcwd in Hc.
  split; [exact Hr|exact Hc].
Qed.

(** ** Looking for a library next to the project *)

Lemma contains_lacks (x : ascii) (s : text) :
  lacks x s = true -> contains [x] s = false.
Proof.
  induction s as [|c s IH]; [reflexivity|].
  cbn [lacks forallb contains startswith]. intros H.
  apply andb_prop in H as [Hc Hs]. apply negb_true_iff in Hc.
  rewrite Ascii.eqb_sym, Hc. cbn [andb orb]. apply IH, Hs.
Qed.

Lemma head_of_last (x name : text) :
  lacks SLASH name = true -> head_of (x ++ SLASH :: name) = x ++ [SLASH].
Proof.
  intros Hl. induction x as [|c x IH].
  - cbn [app head_of contains startswith]. rewrite Ascii.eqb_refl. cbn [andb orb].
    f_equal. destruct name as [|d name]; [reflexivity|].
    cbn [head_of]. rewrite (contains_lacks _ _ Hl). reflexivity.
  - cbn [app head_of]. rewrite <- IH.
    assert (Hc : contains [SLASH] (c :: x ++ SLASH :: name) = true).
    { change (c :: x ++ SLASH :: name) with ((c :: x) ++ SLASH :: name).
      apply contains_app_r. cbn [contains startswith].
      rewrite Ascii.eqb_refl. reflexivity. }
    rewrite Hc. reflexivity.
Qed.

Lemma name_ok_inv (name : text) :
  name_ok name = true ->
  lacks SLASH name = true
  /\ exists c r, rev name = c :: r /\ Ascii.eqb c SLASH = false.
Proof.
  unfold name_ok. intros H. apply andb_prop in H as [Hne Hl].
  split; [exact Hl|].
  apply negb_true_iff in Hne. unfold text_eqb in Hne.
  apply bool_decide_eq_false in Hne.
  rewrite <- lacks_rev in Hl.
  destruct (rev name) as [|c r] eqn:Hr.
  - apply (f_equal (@rev ascii)) in Hr. rewrite rev_involutive in Hr.
    contradiction.
  - exists c, r. split; [reflexivity|].
    cbn [lacks forallb] in Hl. apply andb_prop in Hl as [Hc _].
    apply negb_true_iff in Hc. exact Hc.
Qed.

Lemma absolute_snoc (names : list text) (name : text) :
  absolute (names ++ [name])
  = match names with [] => [] | _ :: _ => absolute names end ++ SLASH :: name.
Proof.
  destruct names as [|n names]; [cbn; rewrite app_nil_r; reflexivity|].
  transitivity (flat_map (fun name => SLASH :: name) ((n :: names) ++ [name]));
    [reflexivity|].
  rewrite flat_map_app. cbn [flat_map absolute].
  rewrite app_nil_r. reflexivity.
Qed.

(** The parent of an absolute path *)
Lemma dirname_absolute (names : list text) (name : text) :
  Forall (fun n => name_ok n = true) names -> name_ok name = true ->
  dirname (absolute (names ++ [name])) = absolute names.
Proof.
  intros Hok Hn. destruct (name_ok_inv name Hn) as [Hl _].
  rewrite absolute_snoc. unfold dirname. rewrite (head_of_last _ _ Hl).
  destruct names as [|n names _] using rev_ind; [reflexivity|].
  apply Forall_app in Hok as [_ Hlast].
  apply Forall_inv in Hlast.
  destruct (name_ok_inv n Hlast) as [_ (c & r & Hr & Hc)].
  assert (Hne : match names ++ [n] with
                | [] => []
                | _ :: _ => absolute (names ++ [n])
                end = absolute (names ++ [n])).
  { destruct names; reflexivity. }
  rewrite Hne. clear Hne.
  assert (Hrev : exists y, rev (absolute (names ++ [n])) = c :: y).
  { rewrite absolute_snoc.
    change (SLASH :: n) with ([SLASH] ++ n).
    rewrite app_assoc, rev_app_distr, Hr. cbn [app]. eauto. }
  destruct Hrev as [y Hy].
  assert (Hall : forallb (Ascii.eqb SLASH) (absolute (names ++ [n]) ++ [SLASH])
                 = false).
  { rewrite <- (rev_involutive (absolute (names ++ [n]))), Hy.
    cbn [rev]. rewrite !forallb_app. cbn [forallb].
    rewrite Ascii.eqb_sym, Hc. cbn [andb].
    rewrite andb_false_r. reflexivity. }
  rewrite Hall. rewrite rev_app_distr. cbn [rev app lstrip_slash].
  rewrite Ascii.eqb_refl, Hy. cbn [lstrip_slash]. rewrite Hc.
  rewrite <- Hy. apply rev_involutive.
Qed.

Lemma absolute_not_root (names : list text) (name : text) :
  name_ok name = true ->
  text_eqb (absolute (names ++ [name])) [SLASH] = false.
Proof.
  intros Hn. destruct (name_ok_inv name Hn) as [_ (c & r & Hr & _)].
  unfold text_eqb. apply bool_decide_eq_false. rewrite absolute_snoc.
  intros H. apply (f_equal (@length ascii)) in H.
  rewrite length_app in H. cbn [length] in H.
  rewrite <- (length_rev name), Hr in H. cbn [length] in H. lia.
Qed.

Lemma absolute_length (names : list text) :
  length names <= length (absolute names).
Proof.
  destruct names as [|n names]; [cbn; lia|].
  unfold absolute. generalize (n :: names). clear. intros l.
  induction l as [|x l IH]; [reflexivity|].
  cbn [flat_map length]. rewrite length_app. cbn [length]. lia.
Qed.

(** The folders looked at, from the parent of the working directory up
    to the root *)
Lemma find_folder_from_nearest (there : text -> bool) (target : text)
    (names : list text) :
  Forall (fun n => name_ok n = true) names ->
  forall fuel w, length names < fuel ->
  let candidate k := path_join (absolute (firstn k names)) target in
  match fst (find_folder_from there target fuel (absolute names) w) with
  | Ret (Found path) =>
      exists k, k < length names /\ path = candidate k
        /\ there path = true
        /\ forall j, k < j < length names -> there (candidate j) = false
  | Ret NotFound =>
      forall j, j < length names -> there (candidate j) = false
  | Ret Unfinished => False
  | Raise _ => False
  end.
Proof.
  induction names as [|name names IH] using rev_ind; intros Hok fuel w Hfuel;
    cbn zeta.
  - destruct fuel as [|fuel]; [cbn [length] in Hfuel; lia|].
    cbn. intros j Hj. lia.
  - apply Forall_app in Hok as [Hok Hn]. apply Forall_inv in Hn.
    destruct fuel as [|fuel]; [lia|].
    rewrite length_app in Hfuel |- *. cbn [length] in Hfuel |- *.
    cbn [find_folder_from]. rewrite (absolute_not_root _ _ Hn).
    rewrite (dirname_absolute _ _ Hok Hn). cbn zeta.
    unfold bind at 1. unfold logging at 1.
    assert (Hcut : forall k, k <= length names ->
               firstn k (names ++ [name]) = firstn k names).
    { intros k Hk. rewrite firstn_app.
      replace (k - length names) with 0 by lia.
      cbn [firstn]. apply app_nil_r. }
    assert (Hfull : firstn (length names) names = names) by apply firstn_all.
    destruct (there (path_join (absolute names) target)) eqn:Hthere.
    + unfold bind, logging, ret. cbn [fst].
      exists (length names). split; [lia|].
      rewrite Hcut, Hfull by lia. split; [reflexivity|].
      split; [exact Hthere|]. intros j Hj. lia.
    + specialize (IH Hok fuel
                    (add_log DEBUG
                       (str "Checking " ++ path_join (absolute names) target) w)
                    ltac:(lia)).
      cbn zeta in IH.
      destruct (fst (find_folder_from there target fuel (absolute names) _))
        as [[path| |]|e]; try exact IH.
      * destruct IH as (k & Hk & Hp & Ht & Hbetween).
        exists k. split; [lia|]. rewrite Hcut by lia.
        split; [exact Hp|]. split; [exact Ht|].
        intros j Hj. rewrite Hcut by lia.
        destruct (Nat.eq_dec j (length names)) as [->|Hne].
        -- rewrite Hfull. exact Hthere.
        -- apply Hbetween. lia.
      * intros j Hj. rewrite Hcut by lia.
        destruct (Nat.eq_dec j (length names)) as [->|Hne].
        -- rewrite Hfull. exact Hthere.
        -- apply IH. lia.
Qed.

(** The search of [find_folder] from a working directory with the
    components [names].  It ends.  What it finds is the target in the
    nearest proper ancestor of the working directory that has it; the
    working directory itself is not looked into.  It fails exactly when
    no proper ancestor, the root included, has the target. *)
Theorem find_folder_nearest (there : text -> bool) (target : text)
    (names : list text) (w : world) :
  cwd w = absolute names ->
  Forall (fun n => name_ok n = true) names ->
  let candidate k := path_join (absolute (firstn k names)) target in
  match fst (find_folder there target w) with
  | Ret (Found path) =>
      exists k, k < length names /\ path = candidate k
        /\ there path = true
        /\ forall j, k < j < length names -> there (candidate j) = false
  | Ret NotFound =>
      forall j, j < length names -> there (candidate j) = false
  | Ret Unfinished => False
  | Raise _ => False
  end.
Proof.
  intros Hcwd Hok. unfold find_folder, bind, logging.
  cbn [cwd add_log]. rewrite Hcwd.
  apply (find_folder_from_nearest there target names Hok).
  pose proof (absolute_length names). lia.
Qed.

Lemma find_folder_nearest_witness :
  let there p := text_eqb p (str "/home/libft") || text_eqb p (str "/libft")
                 || text_eqb p (str "/home/student/push_swap/libft") in
  let names := [str "home"; str "student"; str "push_swap"] in
  let w := mkWorld ∅ (Some []) (str "/home/student/push_swap") [] [] []
             (fun _ => true) in
  let candidate k := path_join (absolute (firstn k names)) (str "libft") in
  match fst (find_folder there (str "libft") w) with
  | Ret (Found path) =>
      exists k, k < length names /\ path = candidate k
        /\ there path = true
        /\ forall j, k < j < length names -> there (candidate j) = false
  | Ret NotFound =>
      forall j, j < length names -> there (candidate j) = false
  | Ret Unfinished => False
  | Raise _ => False
  end.
Proof.
  intros there names w.
  apply (find_folder_nearest there (str "libft") names w eq_refl).
  repeat constructor.
Defined.
